(** * Password strength analyzer: the rule engine of main.cpp and script.js

    The repository holds the same rule engine twice: once in C++
    (main.cpp, a terminal front end) and once in JavaScript (script.js, a
    browser front end).  Both are embedded here, each over the string type
    of its language: a C++ [std::string] is a sequence of 8-bit [char]s, a
    JavaScript string a sequence of 16-bit code units.  The library
    routines both lean on (substring search, the regular expression
    matcher, decimal printing) are modelled once, generically. *)

From Stdlib Require Import List ZArith QArith Qround Bool Ascii String Lia.
From Stdlib Require Import DecimalString Permutation.
Import ListNotations.

Local Open Scope Z_scope.

(** ** Verdict of one criterion ([PasswordCriterion::Result]) *)

Module PasswordCriterion.
Record Result : Type := mkResult {
  met : bool;
  message : string;
  score : Z
}.
End PasswordCriterion.
Import PasswordCriterion.

(** ** Library routines *)

(** Decimal printing of a non-negative number ([std::to_string] on an
    unsigned value, template interpolation of a non-negative integer). *)
Definition to_string (z : Z) : string :=
  NilZero.string_of_uint (N.to_uint (Z.to_N z)).

Definition b2z (b : bool) : Z := if b then 1 else 0.

Section Sequences.
Context {A : Type}.
Variable eqb : A -> A -> bool.

(** [w] is found at the very start of [s]. *)
Fixpoint starts_with (w s : list A) : bool :=
  match w, s with
  | [], _ => true
  | _ :: _, [] => false
  | x :: w', y :: s' => eqb x y && starts_with w' s'
  end.

(** [s.find(w)]: position of the first occurrence of [w] in [s];
    [None] stands for [npos]. *)
Fixpoint find_from (pos : nat) (s w : list A) : option nat :=
  if starts_with w s then Some pos
  else match s with
       | [] => None
       | _ :: s' => find_from (S pos) s' w
       end.

Definition find (s w : list A) : option nat := find_from 0 s w.

(** [s.find(c)] for a single character. *)
Fixpoint find_char_from (pos : nat) (s : list A) (c : A) : option nat :=
  match s with
  | [] => None
  | x :: s' => if eqb x c then Some pos else find_char_from (S pos) s' c
  end.

Definition find_char (s : list A) (c : A) : option nat := find_char_from 0 s c.

Definition found (r : option nat) : bool :=
  match r with Some _ => true | None => false end.

(** [s.includes(w)] *)
Definition includes (s w : list A) : bool := found (find s w).

(** *** The fragment of ECMAScript regular expressions the code uses

    Both [std::regex] (default grammar) and JavaScript read the pattern
    of RepetitionCriterion as ECMAScript: a capturing group around the
    wildcard, followed by two back-references to group 1.  The fragment
    has no alternation and no quantifier, so matching at a given
    position is deterministic. *)
Inductive regex : Type :=
| Dot                       (* .   any character but a line terminator *)
| Group (r : regex)         (* (r) capturing group *)
| Backref (n : nat)         (* \n  text captured by group n *)
| Seq (r1 r2 : regex).      (* r1 r2 *)

Variable lineTerminator : A -> bool.

Definition set_capture (caps : list (option (list A))) (i : nat) (m : list A)
  : list (option (list A)) :=
  firstn i caps ++ Some m :: skipn (S i) caps.

(** [match_here r caps s] matches [r] at the start of [s]: the matched
    text, the captures afterwards and the rest of the input.  Groups are
    numbered from 1 by their opening parenthesis. *)
Fixpoint match_here (r : regex) (caps : list (option (list A))) (s : list A)
  : option (list A * list (option (list A)) * list A) :=
  match r with
  | Dot =>
      match s with
      | c :: s' => if lineTerminator c then None else Some ([c], caps, s')
      | [] => None
      end
  | Group r1 =>
      let i := List.length caps in
      match match_here r1 (caps ++ [None]) s with
      | Some (m, caps', s') => Some (m, set_capture caps' i m, s')
      | None => None
      end
  | Backref n =>
      match nth_error caps (Nat.pred n) with
      | Some (Some m) =>
          if starts_with m s then Some (m, caps, skipn (List.length m) s) else None
      | _ => Some ([], caps, s)   (* a group that has not matched yet *)
      end
  | Seq r1 r2 =>
      match match_here r1 caps s with
      | Some (m1, caps1, s1) =>
          match match_here r2 caps1 s1 with
          | Some (m2, caps2, s2) => Some (m1 ++ m2, caps2, s2)
          | None => None
          end
      | None => None
      end
  end.

(** [regex_search(s, r)] / [r.test(s)]: a match starting anywhere. *)
Fixpoint regex_search (s : list A) (r : regex) : bool :=
  match match_here r [] s with
  | Some _ => true
  | None => match s with
            | [] => false
            | _ :: s' => regex_search s' r
            end
  end.

(** The pattern of RepetitionCriterion, written [(.)\1\1] in both files. *)
Definition repetitionRegex : regex :=
  Seq (Group Dot) (Seq (Backref 1) (Backref 1)).

End Sequences.

(** [int] arithmetic of the C++ code: 32 bits, two's complement. *)
Definition wrap_int (z : Z) : Z := (z + 2 ^ 31) mod 2 ^ 32 - 2 ^ 31.

(** [size_t] arithmetic of the C++ code: 64 bits, unsigned. *)
Definition wrap_size_t (z : Z) : Z := z mod 2 ^ 64.

(** ** main.cpp *)

Module Cpp.

Definition char : Type := ascii.
Definition str : Type := list char.

Definition lit (s : string) : str := list_ascii_of_string s.

(** Promotion of a [char] to [int] and the conversion back.  [char] is
    taken signed; where it is unsigned the bytes from 128 on become
    128..255 instead of -128..-1, and fall outside every range below all
    the same. *)
Definition int_of_char (c : char) : Z :=
  let n := Z.of_N (N_of_ascii c) in
  if n <? 128 then n else n - 256.

Definition char_of_int (z : Z) : char := ascii_of_N (Z.to_N (z mod 256)).

(** <cctype> in the default C locale, which main.cpp never changes; no
    value outside ASCII is a letter or a digit there. *)
Definition isupper (c : Z) : bool := (65 <=? c) && (c <=? 90).
Definition islower (c : Z) : bool := (97 <=? c) && (c <=? 122).
Definition isdigit (c : Z) : bool := (48 <=? c) && (c <=? 57).
Definition tolower (c : Z) : Z := if isupper c then c + 32 else c.

Definition length (s : str) : Z := Z.of_nat (List.length s).

Module LengthCriterion.
Definition name : string := "Minimum Length (8 characters)".
Definition scoreValue : Z := 25.

Definition check (password : str) : Result :=
  let minLength := 8 in
  let isMet := minLength <=? length password in
  let message :=
    if isMet then "Great! Password is 8+ characters long."%string
    else ("Needs " ++ to_string (wrap_size_t (minLength - length password))
                   ++ " more character(s).")%string in
  mkResult isMet message (if isMet then scoreValue else 0).
End LengthCriterion.

Module TypeCriterion.
Definition name : string := "Character Complexity (4 types)".
Definition scoreValue : Z := 50.

Record flags : Type := mkFlags {
  hasUpper : bool;
  hasLower : bool;
  hasDigit : bool;
  hasSpecial : bool
}.

(** The special characters; the double quote is character 34. *)
Definition specials : str :=
  lit "!@#$%^&*()-+={}[]|\:;" ++ [ascii_of_nat 34] ++ lit "'<>,.?/`~".

(** Body of the loop over the characters of the password. *)
Definition step (f : flags) (c : char) : flags :=
  if isupper (int_of_char c) then
    mkFlags true (hasLower f) (hasDigit f) (hasSpecial f)
  else if islower (int_of_char c) then
    mkFlags (hasUpper f) true (hasDigit f) (hasSpecial f)
  else if isdigit (int_of_char c) then
    mkFlags (hasUpper f) (hasLower f) true (hasSpecial f)
  else if found (find_char Ascii.eqb specials c) then
    mkFlags (hasUpper f) (hasLower f) (hasDigit f) true
  else f.

Definition scan (password : str) : flags :=
  fold_left step password (mkFlags false false false false).

Definition typesMet (f : flags) : Z :=
  b2z (hasUpper f) + b2z (hasLower f) + b2z (hasDigit f) + b2z (hasSpecial f).

Definition missing (f : flags) : list string :=
  (if negb (hasUpper f) then ["Uppercase"%string] else []) ++
  (if negb (hasLower f) then ["Lowercase"%string] else []) ++
  (if negb (hasDigit f) then ["Digit"%string] else []) ++
  (if negb (hasSpecial f) then ["Special Char"%string] else []).

(** One round of the loop that writes the missing classes out. *)
Definition append_missing (missing : list string) (message : string) (i : nat)
  : string :=
  let last := wrap_size_t (Z.of_nat (List.length missing) - 1) in
  let sep := if Z.of_nat i <? last then ", "%string else "."%string in
  (message ++ nth i missing "" ++ sep)%string.

Definition awardedScore (f : flags) : Z :=
  Qfloor (inject_Z scoreValue * (inject_Z (typesMet f) / 4))%Q.

Definition check (password : str) : Result :=
  let f := scan password in
  let isMet := typesMet f =? 4 in
  let message :=
    if negb isMet then
      fold_left (append_missing (missing f))
                (seq 0 (List.length (missing f))) "Missing: "%string
    else "Excellent! All 4 character types are present."%string in
  mkResult isMet message (awardedScore f).
End TypeCriterion.

Module RepetitionCriterion.
Definition name : string := "No Repetitive Sequences (AAA)".
Definition scoreValue : Z := 15.

(** Line terminators of the wildcard over [char]: LF and CR. *)
Definition lineTerminator (c : char) : bool :=
  Ascii.eqb c (ascii_of_nat 10) || Ascii.eqb c (ascii_of_nat 13).

Definition check (password : str) : Result :=
  let isWeak := regex_search Ascii.eqb lineTerminator password repetitionRegex in
  let isMet := negb isWeak in
  let message :=
    if isMet then "No obvious triple repetitions found."%string
    else "Warning: Contains three or more identical characters in a row (e.g., 'aaa')."%string in
  mkResult isMet message (if isMet then scoreValue else 0).
End RepetitionCriterion.

Module DictionaryCriterion.
Definition name : string := "Not a Common Word/Pattern".
Definition scoreValue : Z := 10.

(** The weak list is an [unordered_set]; it is listed here in the
    order of its initialiser, and the verdict does not depend on the
    order (see [Cpp_weakList_order]). *)
Definition weakList : list str :=
  map lit ["password"; "123456"; "qwerty"; "admin"; "qazwsx"; "12345678";
           "abc"; "god"; "user"; "access"]%string.

Definition lower (password : str) : str :=
  map (fun c => char_of_int (tolower (int_of_char c))) password.

(** The search loop with its [break], over the words in the order [ws]. *)
Definition isWeak_in (ws : list str) (lowerPassword : str) : bool :=
  existsb (fun weak => found (find Ascii.eqb lowerPassword weak)) ws.

Definition check_with (ws : list str) (password : str) : Result :=
  let lowerPassword := lower password in
  let isWeak := isWeak_in ws lowerPassword in
  let isMet := negb isWeak in
  let message :=
    if isMet then "Password does not contain common dictionary words."%string
    else "Warning: Contains a common or dictionary word/sequence."%string in
  mkResult isMet message (if isMet then scoreValue else 0).

Definition check (password : str) : Result := check_with weakList password.
End DictionaryCriterion.

(** The four subclasses, and the virtual call [criterion->check]. *)
Inductive Criterion : Type :=
| Length | Complexity | Repetition | Dictionary.

Definition getName (c : Criterion) : string :=
  match c with
  | Length => LengthCriterion.name
  | Complexity => TypeCriterion.name
  | Repetition => RepetitionCriterion.name
  | Dictionary => DictionaryCriterion.name
  end.

Definition scoreValue (c : Criterion) : Z :=
  match c with
  | Length => LengthCriterion.scoreValue
  | Complexity => TypeCriterion.scoreValue
  | Repetition => RepetitionCriterion.scoreValue
  | Dictionary => DictionaryCriterion.scoreValue
  end.

Definition check (c : Criterion) (password : str) : Result :=
  match c with
  | Length => LengthCriterion.check password
  | Complexity => TypeCriterion.check password
  | Repetition => RepetitionCriterion.check password
  | Dictionary => DictionaryCriterion.check password
  end.

Module PasswordChecker.
Record FullResult : Type := mkFullResult {
  score : Z;
  results : list Result
}.

Definition criteria : list Criterion :=
  [Length; Complexity; Repetition; Dictionary].

(** A computation together with the log of the [check] calls it made. *)
Definition Logged (X : Type) : Type := (X * list Criterion)%type.
Definition ret {X} (x : X) : Logged X := (x, []).
Definition bind {X Y} (m : Logged X) (k : X -> Logged Y) : Logged Y :=
  let (x, l1) := m in let (y, l2) := k x in (y, l1 ++ l2).
Definition call (c : Criterion) (password : str) : Logged Result :=
  (Cpp.check c password, [c]).

(** The loop over [criteria], from the state [(totalScore, results)]. *)
Fixpoint run (cs : list Criterion) (password : str)
         (totalScore : Z) (results : list Result) : Logged (Z * list Result) :=
  match cs with
  | [] => ret (totalScore, results)
  | c :: cs' =>
      bind (call c password) (fun result =>
      run cs' password
          (wrap_int (totalScore + PasswordCriterion.score result))
          (results ++ [result]))
  end.

Definition check_logged (password : str) : Logged FullResult :=
  match password with
  | [] => ret (mkFullResult 0 [])
  | _ :: _ =>
      bind (run criteria password 0 []) (fun st =>
      ret (mkFullResult (Z.min (fst st) 100) (snd st)))
  end.

Definition check (password : str) : FullResult := fst (check_logged password).
End PasswordChecker.

End Cpp.

(** ** script.js *)

Module Js.

(** A string is a sequence of UTF-16 code units. *)
Definition str : Type := list N.

Definition lit (s : string) : str := map N_of_ascii (list_ascii_of_string s).

Definition length (s : str) : Z := Z.of_nat (List.length s).

Definition isHighSurrogate (u : N) : bool := ((55296 <=? u) && (u <=? 56319))%N.
Definition isLowSurrogate (u : N) : bool := ((56320 <=? u) && (u <=? 57343))%N.

(** [for (const char of s)]: the string is walked code point by code
    point; a high surrogate followed by a low one is a single [char] of
    two units, every other unit is a [char] on its own. *)
Fixpoint codePoints (s : str) : list str :=
  match s with
  | [] => []
  | h :: t =>
      match t with
      | l :: t' =>
          if isHighSurrogate h && isLowSurrogate l
          then [h; l] :: codePoints t'
          else [h] :: codePoints t
      | [] => [[h]]
      end
  end.

(** Relational comparison of two strings: by code units, a proper
    prefix first. *)
Fixpoint compare (a b : str) : comparison :=
  match a, b with
  | [], [] => Eq
  | [], _ :: _ => Lt
  | _ :: _, [] => Gt
  | x :: a', y :: b' =>
      match N.compare x y with
      | Eq => compare a' b'
      | c => c
      end
  end.

Definition ge (a b : str) : bool :=
  match compare a b with Lt => false | _ => true end.
Definition le (a b : str) : bool :=
  match compare a b with Gt => false | _ => true end.

(** [String.prototype.toLowerCase].  The 26 capital letters of ASCII map
    to their small letters and the rest of ASCII to itself; outside
    ASCII the result comes from the Unicode case tables of the engine,
    which are the parameter [unicodeLower] (code point in, its lower
    case out, both as code units). *)
Definition lowerCodePoint (unicodeLower : str -> str) (cp : str) : str :=
  match cp with
  | [u] =>
      if (u <? 128)%N
      then (if ((65 <=? u) && (u <=? 90))%N then [(u + 32)%N] else [u])
      else unicodeLower cp
  | _ => unicodeLower cp
  end.

Definition toLowerCase (unicodeLower : str -> str) (s : str) : str :=
  flat_map (lowerCodePoint unicodeLower) (codePoints s).

Module LengthCriterion.
Definition name : string := "Minimum Length (8 characters)".
Definition scoreValue : Z := 25.

Definition check (password : str) : Result :=
  let isMet := 8 <=? length password in
  mkResult isMet
    (if isMet then "Great! Password is 8+ characters long."%string
     else ("Needs " ++ to_string (Z.max 0 (8 - length password))
                    ++ " more character(s).")%string)
    (if isMet then scoreValue else 0).
End LengthCriterion.

Module TypeCriterion.
Definition name : string := "Character Complexity (4 types)".
Definition scoreValue : Z := 50.

Record flags : Type := mkFlags {
  hasUpper : bool;
  hasLower : bool;
  hasDigit : bool;
  hasSpecial : bool
}.

(** The special characters; the double quote is unit 34. *)
Definition specials : str :=
  lit "!@#$%^&*()-+=~`[]{}|\:;" ++ [34%N] ++ lit "'<>,.?/".

(** Body of the loop; [char] is one code point of the password. *)
Definition step (f : flags) (char : str) : flags :=
  if ge char (lit "A") && le char (lit "Z") then
    mkFlags true (hasLower f) (hasDigit f) (hasSpecial f)
  else if ge char (lit "a") && le char (lit "z") then
    mkFlags (hasUpper f) true (hasDigit f) (hasSpecial f)
  else if ge char (lit "0") && le char (lit "9") then
    mkFlags (hasUpper f) (hasLower f) true (hasSpecial f)
  else if includes N.eqb specials char then
    mkFlags (hasUpper f) (hasLower f) (hasDigit f) true
  else f.

Definition scan (password : str) : flags :=
  fold_left step (codePoints password) (mkFlags false false false false).

Definition typesMet (f : flags) : Z :=
  Z.of_nat (List.length
    (filter (fun b : bool => b) [hasUpper f; hasLower f; hasDigit f; hasSpecial f])).

Definition missingTypes (f : flags) : list string :=
  (if negb (hasUpper f) then ["Uppercase"%string] else []) ++
  (if negb (hasLower f) then ["Lowercase"%string] else []) ++
  (if negb (hasDigit f) then ["Digit"%string] else []) ++
  (if negb (hasSpecial f) then ["Special Char"%string] else []).

Definition awardedScore (f : flags) : Z :=
  Qfloor (inject_Z scoreValue * (inject_Z (typesMet f) / 4))%Q.

Definition check (password : str) : Result :=
  let f := scan password in
  let isMet := typesMet f =? 4 in
  let message :=
    if isMet then "Excellent! All 4 character types are present."%string
    else ("Missing: " ++ String.concat ", " (missingTypes f) ++ ".")%string in
  mkResult isMet message (awardedScore f).
End TypeCriterion.

Module RepetitionCriterion.
Definition name : string := "No Repetitive Sequences (AAA)".
Definition scoreValue : Z := 15.

(** Line terminators of the wildcard: LF, CR, U+2028 and U+2029. *)
Definition lineTerminator (u : N) : bool :=
  (N.eqb u 10 || N.eqb u 13 || N.eqb u 8232 || N.eqb u 8233)%N.

Definition check (password : str) : Result :=
  let isMet := negb (regex_search N.eqb lineTerminator password repetitionRegex) in
  mkResult isMet
    (if isMet then "No obvious triple repetitions found."%string
     else "Warning: Contains three or more identical characters in a row (e.g., 'aaa')."%string)
    (if isMet then scoreValue else 0).
End RepetitionCriterion.

Module DictionaryCriterion.
Definition name : string := "Not a Common Word/Pattern".
Definition scoreValue : Z := 10.

Definition weakList : list str :=
  map lit ["password"; "123456"; "qwerty"; "admin"; "qazwsx"; "12345678";
           "abc"; "god"; "user"; "access"]%string.

Definition check (unicodeLower : str -> str) (password : str) : Result :=
  let lowerPassword := toLowerCase unicodeLower password in
  let isWeak := existsb (fun weak => includes N.eqb lowerPassword weak) weakList in
  let isMet := negb isWeak in
  mkResult isMet
    (if isMet then "Password does not contain common dictionary words."%string
     else "Warning: Contains a common or dictionary word/sequence."%string)
    (if isMet then scoreValue else 0).
End DictionaryCriterion.

Inductive Criterion : Type :=
| Length | Complexity | Repetition | Dictionary.

Definition name (c : Criterion) : string :=
  match c with
  | Length => LengthCriterion.name
  | Complexity => TypeCriterion.name
  | Repetition => RepetitionCriterion.name
  | Dictionary => DictionaryCriterion.name
  end.

Definition scoreValue (c : Criterion) : Z :=
  match c with
  | Length => LengthCriterion.scoreValue
  | Complexity => TypeCriterion.scoreValue
  | Repetition => RepetitionCriterion.scoreValue
  | Dictionary => DictionaryCriterion.scoreValue
  end.

Definition check (unicodeLower : str -> str) (c : Criterion) (password : str)
  : Result :=
  match c with
  | Length => LengthCriterion.check password
  | Complexity => TypeCriterion.check password
  | Repetition => RepetitionCriterion.check password
  | Dictionary => DictionaryCriterion.check unicodeLower password
  end.

(** An element of [results]: the criterion's name spread together with
    the fields of its verdict. *)
Module Entry.
Record t : Type := mk {
  name : string;
  met : bool;
  message : string;
  score : Z
}.
Definition spread (n : string) (r : Result) : t :=
  mk n (PasswordCriterion.met r) (PasswordCriterion.message r)
       (PasswordCriterion.score r).
Definition verdict (e : t) : Result := mkResult (met e) (message e) (score e).
End Entry.

Module PasswordChecker.
Record FullResult : Type := mkFullResult {
  score : Z;
  results : list Entry.t
}.

Definition criteria : list Criterion :=
  [Length; Complexity; Repetition; Dictionary].

Definition Logged (X : Type) : Type := (X * list Criterion)%type.
Definition ret {X} (x : X) : Logged X := (x, []).
Definition bind {X Y} (m : Logged X) (k : X -> Logged Y) : Logged Y :=
  let (x, l1) := m in let (y, l2) := k x in (y, l1 ++ l2).
Definition call (unicodeLower : str -> str) (c : Criterion) (password : str)
  : Logged Result :=
  (Js.check unicodeLower c password, [c]).

Fixpoint run (unicodeLower : str -> str) (cs : list Criterion) (password : str)
         (totalScore : Z) (results : list Entry.t) : Logged (Z * list Entry.t) :=
  match cs with
  | [] => ret (totalScore, results)
  | c :: cs' =>
      bind (call unicodeLower c password) (fun result =>
      run unicodeLower cs' password
          (totalScore + PasswordCriterion.score result)
          (results ++ [Entry.spread (Js.name c) result]))
  end.

(** [!password] holds of the empty string only. *)
Definition falsy (password : str) : bool :=
  match password with [] => true | _ :: _ => false end.

Definition check_logged (unicodeLower : str -> str) (password : str)
  : Logged FullResult :=
  if falsy password || (length password =? 0) then ret (mkFullResult 0 [])
  else
    bind (run unicodeLower criteria password 0 []) (fun st =>
    ret (mkFullResult (Z.min (fst st) 100) (snd st))).

Definition check (unicodeLower : str -> str) (password : str) : FullResult :=
  fst (check_logged unicodeLower password).
End PasswordChecker.

End Js.

(** ** The same text as each program receives it

    A password is a sequence of Unicode code points.  The terminal hands
    it to main.cpp as UTF-8 bytes, the browser hands it to script.js as
    UTF-16 code units. *)

Definition utf8_of_code_point (cp : N) : list ascii :=
  let b (n : N) := ascii_of_N n in
  if (cp <? 128)%N then [b cp]
  else if (cp <? 2048)%N then
    [b (192 + cp / 64); b (128 + cp mod 64)]%N
  else if (cp <? 65536)%N then
    [b (224 + cp / 4096); b (128 + (cp / 64) mod 64); b (128 + cp mod 64)]%N
  else
    [b (240 + cp / 262144); b (128 + (cp / 4096) mod 64);
     b (128 + (cp / 64) mod 64); b (128 + cp mod 64)]%N.

Definition utf16_of_code_point (cp : N) : list N :=
  if (cp <? 65536)%N then [cp]
  else [55296 + (cp - 65536) / 1024; 56320 + (cp - 65536) mod 1024]%N.

Definition utf8 (text : list N) : Cpp.str := flat_map utf8_of_code_point text.
Definition utf16 (text : list N) : Js.str := flat_map utf16_of_code_point text.

Definition text_of (s : string) : list N := map N_of_ascii (list_ascii_of_string s).

(** ** Notions of the specification

    Characters are named by their code: the value of the byte for
    main.cpp, the code unit for script.js. *)

Definition codes (password : Cpp.str) : list N := map N_of_ascii password.

(** [w] occurs in [s] as a substring. *)
Definition contains {A : Type} (s w : list A) : Prop :=
  exists pre post, s = pre ++ w ++ post.

(** [s] has a run of three (or more) identical consecutive characters. *)
Definition has_run3 {A : Type} (s : list A) : Prop :=
  exists pre c post, s = pre ++ c :: c :: c :: post.

Definition is_upper (n : N) : bool := ((65 <=? n) && (n <=? 90))%N.
Definition is_lower (n : N) : bool := ((97 <=? n) && (n <=? 122))%N.
Definition is_digit (n : N) : bool := ((48 <=? n) && (n <=? 57))%N.

(** The special-character set, in the order the specification lists it. *)
Definition special_set : list N :=
  text_of "!@#$%^&*()-+={}[]|\:;" ++ [34%N] ++ text_of "'<>,.?/`~".

Definition is_special (n : N) : bool := existsb (N.eqb n) special_set.

Definition unclassified (n : N) : bool :=
  negb (is_upper n) && negb (is_lower n) && negb (is_digit n) && negb (is_special n).

(** Number of the four classes with a representative among [cs]. *)
Definition typesPresent (cs : list N) : Z :=
  b2z (existsb is_upper cs) + b2z (existsb is_lower cs)
  + b2z (existsb is_digit cs) + b2z (existsb is_special cs).

(** Lower-casing of ASCII, code by code. *)
Definition lower_code (n : N) : N := if is_upper n then (n + 32)%N else n.

Definition weak_terms : list string :=
  ["password"; "123456"; "qwerty"; "admin"; "qazwsx"; "12345678";
   "abc"; "god"; "user"; "access"]%string.

Definition sum_scores (rs : list Result) : Z :=
  fold_right Z.add 0 (map PasswordCriterion.score rs).

Definition is_ascii (n : N) : bool := (n <? 128)%N.

(** The two reports agree: same total and, position by position, the
    same met flags and the same scores. *)
Definition same_report (c : Cpp.PasswordChecker.FullResult)
           (j : Js.PasswordChecker.FullResult) : Prop :=
  Cpp.PasswordChecker.score c = Js.PasswordChecker.score j /\
  map met (Cpp.PasswordChecker.results c)
  = map Js.Entry.met (Js.PasswordChecker.results j) /\
  map score (Cpp.PasswordChecker.results c)
  = map Js.Entry.score (Js.PasswordChecker.results j).

(** The identity in place of the Unicode case tables, for the examples
    that stay within ASCII. *)
Definition no_case_table (cp : Js.str) : Js.str := cp.

(** A run of three equal characters, none a line terminator, as the
    matcher of [repetitionRegex] finds it; used to read the matcher. *)
Fixpoint has_run {A : Type} (eqb : A -> A -> bool) (lineTerminator : A -> bool)
         (s : list A) : bool :=
  match s with
  | a :: t =>
      match t with
      | b :: c :: _ =>
          (negb (lineTerminator a) && eqb a b && eqb a c)
          || has_run eqb lineTerminator t
      | _ => false
      end
  | [] => false
  end.

(** ** The terminal front end: [main] of main.cpp *)

Module Terminal.

Definition endl : string := String (ascii_of_nat 10) EmptyString.

(** [getline(cin, line)]: the characters up to the first line feed, which
    is consumed and not stored; at the end of the input, all that is
    left.  The second component is what stays in [cin]. *)
Fixpoint getline (cin : list ascii) : Cpp.str * list ascii :=
  match cin with
  | [] => ([], [])
  | c :: rest =>
      if Ascii.eqb c (ascii_of_nat 10) then ([], rest)
      else let (line, rest') := getline rest in (c :: line, rest')
  end.

(** [cout << n] for an [int]. *)
Definition show_int (z : Z) : string :=
  if z <? 0 then ("-" ++ to_string (- z))%string else to_string z.

(** [cout << setw(w) << left << s]: spaces are added on the right up to
    [w] columns; a longer text is written in full. *)
Definition setw_left (w : nat) (s : string) : string :=
  (s ++ string_of_list_ascii (repeat " "%char (w - String.length s)))%string.

Definition rule : string :=
  "------------------------------------------------------".

(** One round of the loop that prints the verdicts: [results[i]] and
    [getCriteria()[i]] are read by index; [None] when an index is out of
    range. *)
Definition print_result (analysis : Cpp.PasswordChecker.FullResult) (i : nat)
  : option string :=
  match nth_error (Cpp.PasswordChecker.results analysis) i,
        nth_error Cpp.PasswordChecker.criteria i with
  | Some result, Some criterion =>
      Some ((if met result then "  [PASS] " else "  [FAIL] ")
            ++ setw_left 30 (Cpp.getName criterion) ++ " | "
            ++ message result ++ endl)%string
  | _, _ => None
  end.

Fixpoint print_results (analysis : Cpp.PasswordChecker.FullResult)
         (indices : list nat) (cout : string) : option string :=
  match indices with
  | [] => Some cout
  | i :: indices' =>
      match print_result analysis i with
      | Some line => print_results analysis indices' (cout ++ line)%string
      | None => None
      end
  end.

Definition banner : string :=
  ("--- C++ Password Strength Analyzer (OOP & DSA Demo) ---" ++ endl
   ++ "Enter your password: ")%string.

(** [main]: from the standard input to what is written on the standard
    output and the exit status; [None] when an index runs out of range. *)
Definition main (cin : list ascii) : option (string * Z) :=
  let password := fst (getline cin) in
  match password with
  | [] => Some ((banner ++ "No password entered." ++ endl)%string, 0)
  | _ :: _ =>
      let analysis := Cpp.PasswordChecker.check password in
      let cout :=
        (banner ++ endl ++ rule ++ endl
         ++ "Strength Score: " ++ show_int (Cpp.PasswordChecker.score analysis)
         ++ "/100" ++ endl
         ++ "Evaluation Criteria:" ++ endl
         ++ rule ++ endl)%string in
      match print_results analysis
              (seq 0 (List.length (Cpp.PasswordChecker.results analysis))) cout with
      | Some cout' => Some ((cout' ++ rule ++ endl)%string, 0)
      | None => None
      end
  end.

End Terminal.

(** ** The browser front end: [checkPassword] of script.js *)

Module Browser.

(** The properties of the page that [checkPassword] reads and writes. *)
Record MeterElement : Type := mkMeter {
  width : string;
  backgroundColor : string
}.

Record TextElement : Type := mkText {
  textContent : string;
  className : string
}.

(** The markup put into [feedbackElement.innerHTML] is kept as the
    sequence of the elements it stands for: the heading, one item per
    verdict with the four values its template interpolates, or the
    paragraph shown while nothing is typed. *)
Inductive FeedbackNode : Type :=
| Heading
| Item (statusClass icon name message : string)
| StartTyping.

(** The four elements looked up by id; [None] for one that is missing. *)
Record Page : Type := mkPage {
  inputElement : option Js.str;
  meterElement : option MeterElement;
  textElement : option TextElement;
  feedbackElement : option (list FeedbackNode)
}.

(** Interpolation of an integer in a template. *)
Definition show (z : Z) : string :=
  if z <? 0 then ("-" ++ to_string (- z))%string else to_string z.

(** The chain over the percentage, from the current label and colour:
    every branch assigns both. *)
Definition rate (percentage : Z) (current : string * string) : string * string :=
  if 75 <=? percentage then ("Very Strong"%string, "#10b981"%string)
  else if 50 <=? percentage then ("Strong"%string, "#f59e0b"%string)
  else if 0 <? percentage then ("Medium"%string, "#f97316"%string)
  else ("N/A"%string, "#6b7280"%string).

(** The label and the colour: they start as Weak and red, then the chain
    runs. *)
Definition strength (percentage : Z) : string * string :=
  rate percentage ("Weak"%string, "#ef4444"%string).

Definition item (res : Js.Entry.t) : FeedbackNode :=
  let statusClass :=
    if Js.Entry.met res then "border-green-500 text-green-300"%string
    else "border-yellow-500 text-yellow-300"%string in
  let icon := if Js.Entry.met res then "&#10004;"%string else "&#10006;"%string in
  Item statusClass icon (Js.Entry.name res) (Js.Entry.message res).

Definition checkPassword (unicodeLower : Js.str -> Js.str) (page : Page) : Page :=
  match inputElement page, meterElement page, textElement page, feedbackElement page with
  | Some password, Some _, Some _, Some _ =>
      let report := Js.PasswordChecker.check unicodeLower password in
      let percentage := Js.PasswordChecker.score report in
      let (strengthText, color) := strength percentage in
      let feedback :=
        if 0 <? Js.length password
        then fold_left (fun html res => html ++ [item res])
                       (Js.PasswordChecker.results report) [Heading]
        else [Heading] ++ [StartTyping] in
      mkPage
        (Some password)
        (Some (mkMeter (show percentage ++ "%") color))
        (Some (mkText (strengthText ++ " (" ++ show percentage ++ "%)")
                      ("font-semibold "
                       ++ (if Js.length password =? 0 then "text-gray-400" else ""))))
        (Some feedback)
  | _, _, _, _ => page
  end.

End Browser.

(** A line of the report as a reader sees it: the tag, the name of the
    criterion in a field of 30 columns, a bar, the message. *)
Definition report_line (name : string) (r : Result) : string :=
  ((if met r then "  [PASS] " else "  [FAIL] ")
   ++ Terminal.setw_left 30 name ++ " | " ++ message r ++ Terminal.endl)%string.

(** An item of the feedback list as a reader sees it. *)
Definition feedback_item (name : string) (r : Result) : Browser.FeedbackNode :=
  Browser.Item
    (if met r then "border-green-500 text-green-300"%string
     else "border-yellow-500 text-yellow-300"%string)
    (if met r then "&#10004;"%string else "&#10006;"%string)
    name (message r).

(** Names of the classes that are absent from [cs], in the order
    Uppercase, Lowercase, Digit, Special Char. *)
Definition absent_classes (cs : list N) : list string :=
  (if existsb is_upper cs then [] else ["Uppercase"%string]) ++
  (if existsb is_lower cs then [] else ["Lowercase"%string]) ++
  (if existsb is_digit cs then [] else ["Digit"%string]) ++
  (if existsb is_special cs then [] else ["Special Char"%string]).

(** A Unicode scalar value: a code point up to U+10FFFF that is not a
    surrogate.  A password as text is a sequence of scalar values. *)
Definition is_scalar (cp : N) : bool :=
  ((cp <? 55296) || ((57343 <? cp) && (cp <? 1114112)))%N.

(** A character below U+10000. *)
Definition is_bmp (cp : N) : bool := (cp <? 65536)%N.

(** The values of the bytes of [utf8_of_code_point]. *)
Definition utf8_codes (cp : N) : list N :=
  if (cp <? 128)%N then [cp]
  else if (cp <? 2048)%N then
    [192 + cp / 64; 128 + cp mod 64]%N
  else if (cp <? 65536)%N then
    [224 + cp / 4096; 128 + (cp / 64) mod 64; 128 + cp mod 64]%N
  else
    [240 + cp / 262144; 128 + (cp / 4096) mod 64;
     128 + (cp / 64) mod 64; 128 + cp mod 64]%N.

(** * Facts about the library routines *)

Section SequenceFacts.
Context {A : Type}.
Variable eqb : A -> A -> bool.
Hypothesis eqb_eq : forall a b, eqb a b = true <-> a = b.
Variable lineTerminator : A -> bool.

Lemma eqb_refl' : forall a, eqb a a = true.
Proof. intro a. now apply eqb_eq. Qed.

Lemma starts_with_spec : forall w s,
  starts_with eqb w s = true <-> exists post, s = w ++ post.
Proof.
  induction w as [|x w IH]; intros s; simpl.
  - split; [intros _; now exists s | reflexivity].
  - destruct s as [|y s]; simpl.
    + split; [discriminate | intros [post H]; discriminate].
    + rewrite andb_true_iff, eqb_eq, IH. split.
      * intros [-> [post ->]]. now exists post.
      * intros [post H]. injection H as -> ->. split; [reflexivity | now exists post].
Qed.

Lemma starts_with_app : forall w post, starts_with eqb w (w ++ post) = true.
Proof. intros. apply starts_with_spec. now exists post. Qed.

Lemma find_from_found : forall s w pos,
  found (find_from eqb pos s w) = true <-> contains s w.
Proof.
  induction s as [|x s IH]; intros w pos; simpl.
  - destruct (starts_with eqb w []) eqn:E; simpl.
    + split; [intros _ | reflexivity].
      apply starts_with_spec in E. destruct E as [post E].
      exists [], post. exact E.
    + split; [discriminate |].
      intros (pre & post & H).
      destruct pre; [| discriminate].
      simpl in H. rewrite H, starts_with_app in E. discriminate.
  - destruct (starts_with eqb w (x :: s)) eqn:E; simpl.
    + split; [intros _ | reflexivity].
      apply starts_with_spec in E. destruct E as [post E].
      exists [], post. exact E.
    + rewrite IH. split.
      * intros (pre & post & ->). now exists (x :: pre), post.
      * intros (pre & post & H). destruct pre as [|y pre].
        -- simpl in H. rewrite H, starts_with_app in E. discriminate.
        -- injection H as -> ->. now exists pre, post.
Qed.

Lemma find_found : forall s w, found (find eqb s w) = true <-> contains s w.
Proof. intros. apply find_from_found. Qed.

Lemma includes_spec : forall s w, includes eqb s w = true <-> contains s w.
Proof. intros. apply find_from_found. Qed.

Lemma find_char_from_found : forall s c pos,
  found (find_char_from eqb pos s c) = true <-> In c s.
Proof.
  induction s as [|x s IH]; intros c pos; simpl.
  - split; [discriminate | tauto].
  - destruct (eqb x c) eqn:E; simpl.
    + apply eqb_eq in E. split; [now left | reflexivity].
    + rewrite IH. split; [now right |].
      intros [H | H]; [| exact H].
      apply eqb_eq in H. congruence.
Qed.

Lemma find_char_found : forall s c, found (find_char eqb s c) = true <-> In c s.
Proof. intros. apply find_char_from_found. Qed.

(** What the matcher does with [(.)\1\1] at the start of the input. *)
Lemma match_here_repetition : forall s,
  match_here eqb lineTerminator repetitionRegex [] s =
  match s with
  | a :: b :: c :: t =>
      if negb (lineTerminator a) && eqb a b && eqb a c
      then Some ([a; a; a], [Some [a]], t) else None
  | _ => None
  end.
Proof.
  intros [|a [|b [|c t]]]; simpl; try reflexivity;
    destruct (lineTerminator a); simpl; try reflexivity.
  - destruct (eqb a b); reflexivity.
  - destruct (eqb a b); simpl; [| reflexivity].
    destruct (eqb a c); reflexivity.
Qed.

Lemma regex_search_repetition : forall s,
  regex_search eqb lineTerminator s repetitionRegex
  = has_run eqb lineTerminator s.
Proof.
  induction s as [|a s IH].
  - reflexivity.
  - cbn [regex_search]. rewrite match_here_repetition, IH.
    destruct s as [|b [|c t]]; try reflexivity.
    cbn [has_run].
    destruct (negb (lineTerminator a) && eqb a b && eqb a c); reflexivity.
Qed.

Lemma has_run_spec : forall s,
  has_run eqb lineTerminator s = true <->
  exists pre c post, s = pre ++ c :: c :: c :: post /\ lineTerminator c = false.
Proof.
  induction s as [|a s IH].
  - simpl. split; [discriminate |].
    intros (pre & c & post & H & _). destruct pre; discriminate.
  - cbn [has_run]. destruct s as [|b [|c t]].
    + split; [discriminate |].
      intros (pre & c & post & H & _).
      destruct pre as [|? [|? ?]]; discriminate.
    + split; [discriminate |].
      intros (pre & c & post & H & _).
      destruct pre as [|? [|? [|? ?]]]; discriminate.
    + rewrite orb_true_iff, IH, !andb_true_iff, negb_true_iff, !eqb_eq. split.
      * intros [[[Hl <-] <-] | (pre & d & post & H & Hl)].
        -- now exists [], a, t.
        -- exists (a :: pre), d, post. rewrite H. now split.
      * intros (pre & d & post & H & Hl). destruct pre as [|x pre].
        -- injection H as -> -> -> ->. now left.
        -- injection H as -> H. right. now exists pre, d, post.
Qed.

Lemma regex_search_no_run : forall s,
  ~ has_run3 s -> regex_search eqb lineTerminator s repetitionRegex = false.
Proof.
  intros s H. rewrite regex_search_repetition.
  destruct (has_run eqb lineTerminator s) eqn:E; [| reflexivity].
  apply has_run_spec in E. destruct E as (pre & c & post & E & _).
  exfalso. apply H. now exists pre, c, post.
Qed.

End SequenceFacts.

Section Transfer.
Context {A B : Type}.
Variable f : A -> B.

Lemma map_injective : (forall a b, f a = f b -> a = b) ->
  forall x y, map f x = map f y -> x = y.
Proof.
  intros inj. induction x as [|a x IH]; intros [|b y] H; try discriminate.
  - reflexivity.
  - simpl in H. injection H as H1 H2. f_equal; auto.
Qed.

Lemma contains_map : forall s w, contains s w -> contains (map f s) (map f w).
Proof.
  intros s w (pre & post & ->). exists (map f pre), (map f post).
  now rewrite !map_app.
Qed.

Lemma contains_map_inj : (forall a b, f a = f b -> a = b) ->
  forall s w, contains (map f s) (map f w) <-> contains s w.
Proof.
  intros inj s w. split; [| apply contains_map].
  intros (pre & post & H).
  apply map_eq_app in H. destruct H as (pre' & rest & -> & _ & H).
  apply map_eq_app in H. destruct H as (w' & post' & -> & H & _).
  apply (map_injective inj) in H. subst w'. now exists pre', post'.
Qed.

Variable eqbA : A -> A -> bool.
Variable eqbB : B -> B -> bool.
Variable ltA : A -> bool.
Variable ltB : B -> bool.

Lemma has_run_map : forall s,
  (forall a b, In a s -> In b s -> eqbB (f a) (f b) = eqbA a b) ->
  (forall a, In a s -> ltB (f a) = ltA a) ->
  has_run eqbB ltB (map f s) = has_run eqbA ltA s.
Proof.
  induction s as [|a s IH]; intros He Hl; [reflexivity |].
  cbn [map has_run]. destruct s as [|b [|c t]]; try reflexivity.
  cbn [map]. cbn [map] in IH. rewrite IH.
  - rewrite Hl, !He; simpl; auto.
  - intros x y Hx Hy. apply He; now right.
  - intros x Hx. apply Hl; now right.
Qed.
End Transfer.

(** * Facts about main.cpp *)

Lemma N_of_ascii_inj : forall a b, N_of_ascii a = N_of_ascii b -> a = b.
Proof.
  intros a b H. rewrite <- (ascii_N_embedding a), <- (ascii_N_embedding b).
  now rewrite H.
Qed.

Lemma Cpp_char_classes : forall c : ascii,
  Cpp.isupper (Cpp.int_of_char c) = is_upper (N_of_ascii c) /\
  Cpp.islower (Cpp.int_of_char c) = is_lower (N_of_ascii c) /\
  Cpp.isdigit (Cpp.int_of_char c) = is_digit (N_of_ascii c) /\
  found (find_char Ascii.eqb Cpp.TypeCriterion.specials c) = is_special (N_of_ascii c).
Proof.
  intros c. destruct c as [[] [] [] [] [] [] [] []]; vm_compute; repeat split.
Qed.

Lemma Cpp_tolower_code : forall c : ascii,
  N_of_ascii (Cpp.char_of_int (Cpp.tolower (Cpp.int_of_char c)))
  = lower_code (N_of_ascii c).
Proof.
  intros c. destruct c as [[] [] [] [] [] [] [] []]; vm_compute; reflexivity.
Qed.

Lemma special_not_alnum : forall n,
  is_special n = true ->
  is_upper n = false /\ is_lower n = false /\ is_digit n = false.
Proof.
  intros n H. unfold is_special in H. apply existsb_exists in H.
  destruct H as (x & Hin & Heq). apply N.eqb_eq in Heq. subst x.
  assert (C : forallb (fun x => negb (is_upper x) && negb (is_lower x) && negb (is_digit x))
                      special_set = true) by (vm_compute; reflexivity).
  rewrite forallb_forall in C. specialize (C n Hin).
  rewrite !andb_true_iff, !negb_true_iff in C. tauto.
Qed.

Lemma classes_disjoint : forall n,
  (is_upper n = true -> is_lower n = false /\ is_digit n = false /\ is_special n = false) /\
  (is_lower n = true -> is_digit n = false /\ is_special n = false) /\
  (is_digit n = true -> is_special n = false).
Proof.
  intros n.
  assert (S := special_not_alnum n).
  unfold is_upper, is_lower, is_digit in *.
  destruct (is_special n).
  - destruct (S eq_refl) as (-> & -> & ->). repeat split; discriminate.
  - repeat split; auto;
      rewrite ?andb_true_iff, ?andb_false_iff, ?N.leb_le, ?N.leb_gt in *; lia.
Qed.

Lemma Cpp_step_spec : forall f c,
  Cpp.TypeCriterion.step f c =
  Cpp.TypeCriterion.mkFlags
    (Cpp.TypeCriterion.hasUpper f || is_upper (N_of_ascii c))
    (Cpp.TypeCriterion.hasLower f || is_lower (N_of_ascii c))
    (Cpp.TypeCriterion.hasDigit f || is_digit (N_of_ascii c))
    (Cpp.TypeCriterion.hasSpecial f || is_special (N_of_ascii c)).
Proof.
  intros f c. unfold Cpp.TypeCriterion.step.
  destruct (Cpp_char_classes c) as (-> & -> & -> & ->).
  destruct (classes_disjoint (N_of_ascii c)) as (Hu & Hl & Hd).
  destruct f as [u l d s]; simpl.
  destruct (is_upper (N_of_ascii c)).
  { destruct (Hu eq_refl) as (-> & -> & ->). now rewrite !orb_false_r, orb_true_r. }
  destruct (is_lower (N_of_ascii c)).
  { destruct (Hl eq_refl) as (-> & ->). now rewrite !orb_false_r, orb_true_r. }
  destruct (is_digit (N_of_ascii c)).
  { rewrite (Hd eq_refl). now rewrite !orb_false_r, orb_true_r. }
  destruct (is_special (N_of_ascii c)); now rewrite ?orb_false_r, ?orb_true_r.
Qed.

Lemma Cpp_fold_step : forall password f,
  fold_left Cpp.TypeCriterion.step password f =
  Cpp.TypeCriterion.mkFlags
    (Cpp.TypeCriterion.hasUpper f || existsb is_upper (codes password))
    (Cpp.TypeCriterion.hasLower f || existsb is_lower (codes password))
    (Cpp.TypeCriterion.hasDigit f || existsb is_digit (codes password))
    (Cpp.TypeCriterion.hasSpecial f || existsb is_special (codes password)).
Proof.
  induction password as [|c password IH]; intros f; simpl.
  - destruct f; simpl. now rewrite !orb_false_r.
  - rewrite IH, Cpp_step_spec. simpl. now rewrite !orb_assoc.
Qed.

Lemma Cpp_scan_spec : forall password,
  Cpp.TypeCriterion.scan password =
  Cpp.TypeCriterion.mkFlags
    (existsb is_upper (codes password)) (existsb is_lower (codes password))
    (existsb is_digit (codes password)) (existsb is_special (codes password)).
Proof. intros. unfold Cpp.TypeCriterion.scan. now rewrite Cpp_fold_step. Qed.

(** * Facts about script.js *)

Lemma Js_ge_single : forall u k, Js.ge [u] [k] = (k <=? u)%N.
Proof.
  intros u k. unfold Js.ge. simpl.
  destruct (N.compare u k) eqn:E; symmetry.
  - apply N.compare_eq in E. subst. apply N.leb_refl.
  - apply N.leb_gt. now apply N.compare_lt_iff.
  - apply N.leb_le. apply N.compare_gt_iff in E. lia.
Qed.

Lemma Js_le_single : forall u k, Js.le [u] [k] = (u <=? k)%N.
Proof.
  intros u k. unfold Js.le. simpl.
  destruct (N.compare u k) eqn:E; symmetry.
  - apply N.compare_eq in E. subst. apply N.leb_refl.
  - apply N.leb_le, N.lt_le_incl. exact E.
  - apply N.leb_gt. now apply N.compare_gt_iff.
Qed.

Lemma contains_single : forall (A : Type) (s : list A) (u : A),
  contains s [u] <-> In u s.
Proof.
  intros A s u. split.
  - intros (pre & post & ->). apply in_elt.
  - intros H. apply in_split in H. destruct H as (pre & post & ->).
    now exists pre, post.
Qed.

Lemma In_by_check : forall (l : list N) (u : N), existsb (N.eqb u) l = true <-> In u l.
Proof.
  intros l u. rewrite existsb_exists. split.
  - intros (x & Hin & E). apply N.eqb_eq in E. now subst.
  - intros H. exists u. split; [exact H | apply N.eqb_refl].
Qed.

Lemma Js_specials_same : forall u, In u Js.TypeCriterion.specials <-> In u special_set.
Proof.
  assert (C1 : forallb (fun x => existsb (N.eqb x) special_set)
                       Js.TypeCriterion.specials = true) by (vm_compute; reflexivity).
  assert (C2 : forallb (fun x => existsb (N.eqb x) Js.TypeCriterion.specials)
                       special_set = true) by (vm_compute; reflexivity).
  rewrite forallb_forall in C1, C2.
  intros u. split; intros H; apply In_by_check; auto.
Qed.

Lemma Js_includes_special : forall u,
  includes N.eqb Js.TypeCriterion.specials [u] = is_special u.
Proof.
  intros u. apply eq_true_iff_eq.
  rewrite (includes_spec N.eqb N.eqb_eq), contains_single, Js_specials_same.
  unfold is_special. symmetry. apply In_by_check.
Qed.

Lemma special_is_ascii : forall n, is_special n = true -> (n < 128)%N.
Proof.
  intros n H. apply In_by_check in H.
  assert (C : forallb is_ascii special_set = true) by (vm_compute; reflexivity).
  rewrite forallb_forall in C. apply C in H. now apply N.ltb_lt in H.
Qed.

Lemma beyond_ascii_unclassified : forall n, (128 <= n)%N -> unclassified n = true.
Proof.
  intros n H. unfold unclassified.
  destruct (is_special n) eqn:S; [apply special_is_ascii in S; lia |].
  unfold is_upper, is_lower, is_digit.
  rewrite !andb_true_iff, !negb_true_iff, !andb_false_iff, !N.leb_gt. lia.
Qed.

Lemma unclassified_classes : forall n,
  unclassified n = true <->
  is_upper n = false /\ is_lower n = false /\ is_digit n = false /\ is_special n = false.
Proof.
  intros n. unfold unclassified.
  rewrite !andb_true_iff, !negb_true_iff. tauto.
Qed.

Lemma Js_step_single : forall f u,
  Js.TypeCriterion.step f [u] =
  Js.TypeCriterion.mkFlags
    (Js.TypeCriterion.hasUpper f || is_upper u)
    (Js.TypeCriterion.hasLower f || is_lower u)
    (Js.TypeCriterion.hasDigit f || is_digit u)
    (Js.TypeCriterion.hasSpecial f || is_special u).
Proof.
  intros f u. unfold Js.TypeCriterion.step.
  change (Js.lit "A") with [65%N]. change (Js.lit "Z") with [90%N].
  change (Js.lit "a") with [97%N]. change (Js.lit "z") with [122%N].
  change (Js.lit "0") with [48%N]. change (Js.lit "9") with [57%N].
  rewrite !Js_ge_single, !Js_le_single, Js_includes_special.
  fold (is_upper u) (is_lower u) (is_digit u).
  destruct (classes_disjoint u) as (Hu & Hl & Hd).
  destruct f as [a b c d]; simpl.
  destruct (is_upper u).
  { destruct (Hu eq_refl) as (-> & -> & ->). now rewrite !orb_false_r, orb_true_r. }
  destruct (is_lower u).
  { destruct (Hl eq_refl) as (-> & ->). now rewrite !orb_false_r, orb_true_r. }
  destruct (is_digit u).
  { rewrite (Hd eq_refl). now rewrite !orb_false_r, orb_true_r. }
  destruct (is_special u); now rewrite ?orb_false_r, ?orb_true_r.
Qed.

Lemma Js_step_pair : forall f h l,
  Js.isHighSurrogate h = true -> Js.TypeCriterion.step f [h; l] = f.
Proof.
  intros f h l H. unfold Js.isHighSurrogate in H.
  rewrite andb_true_iff, !N.leb_le in H.
  assert (G : forall k, (k < 128)%N -> Js.le [h; l] [k] = false).
  { intros k Hk. unfold Js.le. simpl.
    replace (N.compare h k) with Gt; [reflexivity |].
    symmetry. apply N.compare_gt_iff. lia. }
  unfold Js.TypeCriterion.step.
  change (Js.lit "Z") with [90%N]. change (Js.lit "z") with [122%N].
  change (Js.lit "9") with [57%N].
  rewrite !G, !andb_false_r by lia.
  destruct (includes N.eqb Js.TypeCriterion.specials [h; l]) eqn:E; [| reflexivity].
  exfalso. apply (includes_spec N.eqb N.eqb_eq) in E.
  destruct E as (pre & post & E).
  assert (Hin : In h Js.TypeCriterion.specials).
  { rewrite E. apply in_or_app. right. now left. }
  apply Js_specials_same, In_by_check in Hin.
  apply special_is_ascii in Hin. lia.
Qed.

Lemma surrogate_unclassified : forall u,
  (55296 <= u)%N ->
  is_upper u = false /\ is_lower u = false /\ is_digit u = false /\ is_special u = false.
Proof.
  intros u H. apply unclassified_classes, beyond_ascii_unclassified. lia.
Qed.

Lemma Js_codePoints_cons : forall h l t,
  Js.codePoints (h :: l :: t) =
  if Js.isHighSurrogate h && Js.isLowSurrogate l
  then [h; l] :: Js.codePoints t
  else [h] :: Js.codePoints (l :: t).
Proof. reflexivity. Qed.

Lemma Js_fold_step : forall n password, (List.length password <= n)%nat -> forall f,
  fold_left Js.TypeCriterion.step (Js.codePoints password) f =
  Js.TypeCriterion.mkFlags
    (Js.TypeCriterion.hasUpper f || existsb is_upper password)
    (Js.TypeCriterion.hasLower f || existsb is_lower password)
    (Js.TypeCriterion.hasDigit f || existsb is_digit password)
    (Js.TypeCriterion.hasSpecial f || existsb is_special password).
Proof.
  induction n as [|n IH]; intros password Hn f.
  - destruct password; [| simpl in Hn; lia].
    destruct f; simpl. now rewrite !orb_false_r.
  - destruct password as [|h [|l t]].
    + destruct f; simpl. now rewrite !orb_false_r.
    + cbn [Js.codePoints fold_left]. rewrite Js_step_single. simpl.
      now rewrite !orb_false_r.
    + rewrite Js_codePoints_cons.
      destruct (Js.isHighSurrogate h && Js.isLowSurrogate l) eqn:E.
      * apply andb_true_iff in E. destruct E as [Eh El].
        cbn [fold_left]. rewrite Js_step_pair by exact Eh.
        rewrite IH by (simpl in Hn |- *; lia).
        unfold Js.isHighSurrogate in Eh. unfold Js.isLowSurrogate in El.
        rewrite andb_true_iff, !N.leb_le in Eh, El.
        cbn [existsb].
        destruct (surrogate_unclassified h) as (-> & -> & -> & ->); [lia |].
        destruct (surrogate_unclassified l) as (-> & -> & -> & ->); [lia |].
        reflexivity.
      * cbn [fold_left]. rewrite Js_step_single.
        rewrite IH by (simpl in Hn |- *; lia).
        cbn [Js.TypeCriterion.hasUpper Js.TypeCriterion.hasLower
             Js.TypeCriterion.hasDigit Js.TypeCriterion.hasSpecial].
        cbn [existsb]. now rewrite !orb_assoc.
Qed.

Lemma Js_scan_spec : forall password,
  Js.TypeCriterion.scan password =
  Js.TypeCriterion.mkFlags
    (existsb is_upper password) (existsb is_lower password)
    (existsb is_digit password) (existsb is_special password).
Proof.
  intros. unfold Js.TypeCriterion.scan.
  now rewrite (Js_fold_step (List.length password)).
Qed.

Lemma Js_codePoints_ascii : forall s,
  forallb is_ascii s = true -> Js.codePoints s = map (fun u => [u]) s.
Proof.
  induction s as [|h s IH]; intros H; [reflexivity |].
  simpl in H. apply andb_true_iff in H. destruct H as [Hh Hs].
  destruct s as [|l t]; [reflexivity |].
  rewrite Js_codePoints_cons.
  replace (Js.isHighSurrogate h) with false.
  - cbn [andb]. rewrite IH by exact Hs. reflexivity.
  - unfold is_ascii in Hh. apply N.ltb_lt in Hh. unfold Js.isHighSurrogate.
    symmetry. apply andb_false_iff. left. apply N.leb_gt. lia.
Qed.

Lemma Js_toLowerCase_ascii : forall unicodeLower s,
  forallb is_ascii s = true -> Js.toLowerCase unicodeLower s = map lower_code s.
Proof.
  intros ul s H. unfold Js.toLowerCase. rewrite Js_codePoints_ascii by exact H.
  induction s as [|h s IH]; [reflexivity |].
  simpl in H. apply andb_true_iff in H. destruct H as [Hh Hs].
  cbn [map flat_map]. rewrite IH by exact Hs.
  unfold Js.lowerCodePoint, lower_code, is_upper. unfold is_ascii in Hh.
  rewrite Hh. now destruct ((65 <=? h)%N && (h <=? 90)%N).
Qed.

(** * Scores of the four criteria *)

Lemma typesPresent_range : forall cs, 0 <= typesPresent cs <= 4.
Proof.
  intros cs. unfold typesPresent.
  destruct (existsb is_upper cs), (existsb is_lower cs),
           (existsb is_digit cs), (existsb is_special cs); simpl; lia.
Qed.

(** The products and quotients stay exact: quarters of 50 are dyadic. *)
Lemma awarded_floor : forall t,
  0 <= t <= 4 -> Qfloor (inject_Z 50 * (inject_Z t / 4))%Q = 50 * t / 4.
Proof.
  intros t H.
  assert (C : t = 0 \/ t = 1 \/ t = 2 \/ t = 3 \/ t = 4) by lia.
  destruct C as [-> | [-> | [-> | [-> | ->]]]]; reflexivity.
Qed.

Lemma Cpp_typesMet_spec : forall password,
  Cpp.TypeCriterion.typesMet (Cpp.TypeCriterion.scan password)
  = typesPresent (codes password).
Proof. intros. now rewrite Cpp_scan_spec. Qed.

Lemma Js_typesMet_spec : forall password,
  Js.TypeCriterion.typesMet (Js.TypeCriterion.scan password) = typesPresent password.
Proof.
  intros. rewrite Js_scan_spec. unfold Js.TypeCriterion.typesMet, typesPresent.
  cbn [Js.TypeCriterion.hasUpper Js.TypeCriterion.hasLower
       Js.TypeCriterion.hasDigit Js.TypeCriterion.hasSpecial].
  destruct (existsb is_upper password), (existsb is_lower password),
           (existsb is_digit password), (existsb is_special password); reflexivity.
Qed.

Lemma Cpp_type_score : forall password,
  score (Cpp.TypeCriterion.check password) = 50 * typesPresent (codes password) / 4.
Proof.
  intros. unfold Cpp.TypeCriterion.check, Cpp.TypeCriterion.awardedScore.
  cbn [score]. rewrite Cpp_typesMet_spec.
  apply awarded_floor, typesPresent_range.
Qed.

Lemma Js_type_score : forall password,
  score (Js.TypeCriterion.check password) = 50 * typesPresent password / 4.
Proof.
  intros. unfold Js.TypeCriterion.check, Js.TypeCriterion.awardedScore.
  cbn [score]. rewrite Js_typesMet_spec.
  apply awarded_floor, typesPresent_range.
Qed.

Lemma Cpp_type_met : forall password,
  met (Cpp.TypeCriterion.check password) = (typesPresent (codes password) =? 4).
Proof.
  intros. unfold Cpp.TypeCriterion.check. cbn [met]. now rewrite Cpp_typesMet_spec.
Qed.

Lemma Js_type_met : forall password,
  met (Js.TypeCriterion.check password) = (typesPresent password =? 4).
Proof.
  intros. unfold Js.TypeCriterion.check. cbn [met]. now rewrite Js_typesMet_spec.
Qed.

Lemma quarters : forall t, 0 <= t <= 4 -> 0 <= 50 * t / 4 <= 50.
Proof.
  intros t H. split.
  - apply Z.div_pos; lia.
  - apply Z.div_le_upper_bound; lia.
Qed.

Lemma Cpp_score_range : forall c password,
  0 <= score (Cpp.check c password) <= Cpp.scoreValue c.
Proof.
  intros [] password; cbn [Cpp.check Cpp.scoreValue].
  - unfold Cpp.LengthCriterion.check. cbn [score].
    destruct (8 <=? Cpp.length password); unfold Cpp.LengthCriterion.scoreValue; lia.
  - rewrite Cpp_type_score. apply quarters, typesPresent_range.
  - unfold Cpp.RepetitionCriterion.check. cbn [score].
    destruct (negb _); unfold Cpp.RepetitionCriterion.scoreValue; lia.
  - unfold Cpp.DictionaryCriterion.check, Cpp.DictionaryCriterion.check_with. cbn [score].
    destruct (negb _); unfold Cpp.DictionaryCriterion.scoreValue; lia.
Qed.

Lemma Js_score_range : forall unicodeLower c password,
  0 <= score (Js.check unicodeLower c password) <= Js.scoreValue c.
Proof.
  intros ul [] password; cbn [Js.check Js.scoreValue].
  - unfold Js.LengthCriterion.check. cbn [score].
    destruct (8 <=? Js.length password); unfold Js.LengthCriterion.scoreValue; lia.
  - rewrite Js_type_score. apply quarters, typesPresent_range.
  - unfold Js.RepetitionCriterion.check. cbn [score].
    destruct (negb _); unfold Js.RepetitionCriterion.scoreValue; lia.
  - unfold Js.DictionaryCriterion.check. cbn [score].
    destruct (negb _); unfold Js.DictionaryCriterion.scoreValue; lia.
Qed.

Lemma wrap_int_small : forall z, - 2 ^ 31 <= z < 2 ^ 31 -> wrap_int z = z.
Proof.
  intros z H. unfold wrap_int. rewrite Z.mod_small; lia.
Qed.

(** The loop over the four criteria, call by call. *)
Lemma Cpp_run_criteria : forall password,
  let rs := [Cpp.LengthCriterion.check password; Cpp.TypeCriterion.check password;
             Cpp.RepetitionCriterion.check password;
             Cpp.DictionaryCriterion.check password] in
  Cpp.PasswordChecker.run Cpp.PasswordChecker.criteria password 0 []
  = ((sum_scores rs, rs), Cpp.PasswordChecker.criteria).
Proof.
  intros password rs. subst rs.
  assert (H1 := Cpp_score_range Cpp.Length password).
  assert (H2 := Cpp_score_range Cpp.Complexity password).
  assert (H3 := Cpp_score_range Cpp.Repetition password).
  assert (H4 := Cpp_score_range Cpp.Dictionary password).
  cbn [Cpp.check Cpp.scoreValue] in H1, H2, H3, H4.
  unfold Cpp.LengthCriterion.scoreValue in H1. unfold Cpp.TypeCriterion.scoreValue in H2.
  unfold Cpp.RepetitionCriterion.scoreValue in H3.
  unfold Cpp.DictionaryCriterion.scoreValue in H4.
  unfold Cpp.PasswordChecker.criteria at 1.
  cbn [Cpp.PasswordChecker.run Cpp.PasswordChecker.bind Cpp.PasswordChecker.call
       Cpp.PasswordChecker.ret Cpp.check app fst snd].
  set (a := score (Cpp.LengthCriterion.check password)) in *.
  set (b := score (Cpp.TypeCriterion.check password)) in *.
  set (c := score (Cpp.RepetitionCriterion.check password)) in *.
  set (d := score (Cpp.DictionaryCriterion.check password)) in *.
  rewrite (wrap_int_small (0 + a)) by lia.
  rewrite (wrap_int_small (0 + a + b)) by lia.
  rewrite (wrap_int_small (0 + a + b + c)) by lia.
  rewrite (wrap_int_small (0 + a + b + c + d)) by lia.
  replace (0 + a + b + c + d) with (a + (b + (c + (d + 0)))) by lia.
  reflexivity.
Qed.

Lemma Cpp_check_logged_cons : forall c rest,
  let password := c :: rest in
  let rs := [Cpp.LengthCriterion.check password; Cpp.TypeCriterion.check password;
             Cpp.RepetitionCriterion.check password;
             Cpp.DictionaryCriterion.check password] in
  Cpp.PasswordChecker.check_logged password
  = (Cpp.PasswordChecker.mkFullResult (Z.min (sum_scores rs) 100) rs,
     Cpp.PasswordChecker.criteria).
Proof.
  intros c rest password rs. subst rs.
  unfold Cpp.PasswordChecker.check_logged, password.
  rewrite Cpp_run_criteria.
  cbn [Cpp.PasswordChecker.bind Cpp.PasswordChecker.ret fst snd].
  now rewrite app_nil_r.
Qed.

Lemma Js_check_logged_cons : forall unicodeLower c rest,
  let password := c :: rest in
  let rs := [Js.LengthCriterion.check password; Js.TypeCriterion.check password;
             Js.RepetitionCriterion.check password;
             Js.DictionaryCriterion.check unicodeLower password] in
  Js.PasswordChecker.check_logged unicodeLower password
  = (Js.PasswordChecker.mkFullResult (Z.min (sum_scores rs) 100)
       (map (fun cr => Js.Entry.spread (Js.name (fst cr)) (snd cr))
            (combine Js.PasswordChecker.criteria rs)),
     Js.PasswordChecker.criteria).
Proof.
  intros ul c rest password rs.
  unfold Js.PasswordChecker.check_logged.
  replace (Js.PasswordChecker.falsy password || (Js.length password =? 0)) with false
    by (unfold password, Js.length; cbn [Js.PasswordChecker.falsy List.length orb];
        symmetry; apply Z.eqb_neq; lia).
  unfold Js.PasswordChecker.criteria at 1.
  cbn [Js.PasswordChecker.run Js.PasswordChecker.bind Js.PasswordChecker.call
       Js.PasswordChecker.ret Js.check app fst snd].
  set (a := score (Js.LengthCriterion.check password)).
  set (b := score (Js.TypeCriterion.check password)).
  set (c0 := score (Js.RepetitionCriterion.check password)).
  set (d := score (Js.DictionaryCriterion.check ul password)).
  replace (0 + a + b + c0 + d) with (a + (b + (c0 + (d + 0)))) by lia.
  reflexivity.
Qed.

(** * The claims *)

(** C1 as stated fails.  In "Passw0rd!" the letter o is the digit 0, so the
    lower-cased password does not contain "password": neither program
    reports 90 with the dictionary criterion failed. *)
Lemma C1_Passw0rd_is_not_90 :
  ~ (Cpp.PasswordChecker.score (Cpp.PasswordChecker.check (Cpp.lit "Passw0rd!")) = 90
     /\ map met (Cpp.PasswordChecker.results
                   (Cpp.PasswordChecker.check (Cpp.lit "Passw0rd!")))
        = [true; true; true; false])
  /\
  ~ (Js.PasswordChecker.score
       (Js.PasswordChecker.check no_case_table (Js.lit "Passw0rd!")) = 90
     /\ map Js.Entry.met
            (Js.PasswordChecker.results
               (Js.PasswordChecker.check no_case_table (Js.lit "Passw0rd!")))
        = [true; true; true; false]).
Proof.
  split; intros [H _]; vm_compute in H; discriminate.
Qed.

(** C1 (amended): for "Passw0rd!" both programs report the total 100 and
    the met flags true, true, true, true, in the order Length,
    Complexity, Repetition, Dictionary.  The report the claim describes,
    total 90 with only the dictionary criterion failed, is the one of
    "Password1!", which does contain "password" once lower-cased. *)
Theorem C1_Passw0rd_report :
  (Cpp.PasswordChecker.score (Cpp.PasswordChecker.check (Cpp.lit "Passw0rd!")) = 100
   /\ map met (Cpp.PasswordChecker.results
                 (Cpp.PasswordChecker.check (Cpp.lit "Passw0rd!")))
      = [true; true; true; true])
  /\
  (forall unicodeLower,
     Js.PasswordChecker.score
       (Js.PasswordChecker.check unicodeLower (Js.lit "Passw0rd!")) = 100
     /\ map Js.Entry.met
            (Js.PasswordChecker.results
               (Js.PasswordChecker.check unicodeLower (Js.lit "Passw0rd!")))
        = [true; true; true; true])
  /\
  (Cpp.PasswordChecker.score (Cpp.PasswordChecker.check (Cpp.lit "Password1!")) = 90
   /\ map met (Cpp.PasswordChecker.results
                 (Cpp.PasswordChecker.check (Cpp.lit "Password1!")))
      = [true; true; true; false])
  /\
  (forall unicodeLower,
     Js.PasswordChecker.score
       (Js.PasswordChecker.check unicodeLower (Js.lit "Password1!")) = 90
     /\ map Js.Entry.met
            (Js.PasswordChecker.results
               (Js.PasswordChecker.check unicodeLower (Js.lit "Password1!")))
        = [true; true; true; false]).
Proof.
  repeat split; intros; vm_compute; reflexivity.
Qed.

(** C2: the total score of every password lies between 0 and 100.  For a
    non-empty password the report holds the verdicts of the four criteria
    in the order Length, Complexity, Repetition, Dictionary, each criterion
    is called once, and the total is the smaller of 100 and the sum of the
    four scores.  For the empty password the total is 0, the list of
    verdicts is empty and no criterion is called. *)
Theorem C2_total_score :
  (forall password,
     0 <= Cpp.PasswordChecker.score (Cpp.PasswordChecker.check password) <= 100)
  /\
  (forall c rest,
     let password := c :: rest in
     let report := Cpp.PasswordChecker.check password in
     Cpp.PasswordChecker.results report
     = [Cpp.LengthCriterion.check password; Cpp.TypeCriterion.check password;
        Cpp.RepetitionCriterion.check password; Cpp.DictionaryCriterion.check password]
     /\ Cpp.PasswordChecker.score report
        = Z.min 100 (sum_scores (Cpp.PasswordChecker.results report))
     /\ snd (Cpp.PasswordChecker.check_logged password)
        = [Cpp.Length; Cpp.Complexity; Cpp.Repetition; Cpp.Dictionary])
  /\
  Cpp.PasswordChecker.check_logged [] = (Cpp.PasswordChecker.mkFullResult 0 [], [])
  /\
  (forall unicodeLower password,
     0 <= Js.PasswordChecker.score (Js.PasswordChecker.check unicodeLower password) <= 100)
  /\
  (forall unicodeLower c rest,
     let password := c :: rest in
     let report := Js.PasswordChecker.check unicodeLower password in
     map Js.Entry.verdict (Js.PasswordChecker.results report)
     = [Js.LengthCriterion.check password; Js.TypeCriterion.check password;
        Js.RepetitionCriterion.check password;
        Js.DictionaryCriterion.check unicodeLower password]
     /\ Js.PasswordChecker.score report
        = Z.min 100 (sum_scores (map Js.Entry.verdict (Js.PasswordChecker.results report)))
     /\ snd (Js.PasswordChecker.check_logged unicodeLower password)
        = [Js.Length; Js.Complexity; Js.Repetition; Js.Dictionary])
  /\
  (forall unicodeLower,
     Js.PasswordChecker.check_logged unicodeLower []
     = (Js.PasswordChecker.mkFullResult 0 [], [])).
Proof.
  assert (V : forall r n, Js.Entry.verdict (Js.Entry.spread n r) = r).
  { intros [m msg sc] n. reflexivity. }
  repeat match goal with
         | |- _ /\ _ => apply conj
         | |- forall _, _ => intro
         | |- let _ := _ in _ => intro
         end;
    try subst report; try subst password.
  - destruct password as [|c rest]; [vm_compute; discriminate |].
    unfold Cpp.PasswordChecker.check. rewrite Cpp_check_logged_cons.
    cbn [fst Cpp.PasswordChecker.score].
    assert (H1 := Cpp_score_range Cpp.Length (c :: rest)).
    assert (H2 := Cpp_score_range Cpp.Complexity (c :: rest)).
    assert (H3 := Cpp_score_range Cpp.Repetition (c :: rest)).
    assert (H4 := Cpp_score_range Cpp.Dictionary (c :: rest)).
    unfold sum_scores. cbn [map fold_right]. cbn [Cpp.check] in H1, H2, H3, H4. lia.
  - destruct password as [|c rest]; [vm_compute; discriminate |].
    unfold Cpp.PasswordChecker.check. rewrite Cpp_check_logged_cons.
    cbn [fst Cpp.PasswordChecker.score]. lia.
  - unfold Cpp.PasswordChecker.check. now rewrite Cpp_check_logged_cons.
  - unfold Cpp.PasswordChecker.check. rewrite Cpp_check_logged_cons.
    cbn [fst Cpp.PasswordChecker.score Cpp.PasswordChecker.results]. apply Z.min_comm.
  - now rewrite Cpp_check_logged_cons.
  - reflexivity.
  - destruct password as [|c rest]; [vm_compute; discriminate |].
    unfold Js.PasswordChecker.check. rewrite Js_check_logged_cons.
    cbn [fst Js.PasswordChecker.score].
    assert (H1 := Js_score_range unicodeLower Js.Length (c :: rest)).
    assert (H2 := Js_score_range unicodeLower Js.Complexity (c :: rest)).
    assert (H3 := Js_score_range unicodeLower Js.Repetition (c :: rest)).
    assert (H4 := Js_score_range unicodeLower Js.Dictionary (c :: rest)).
    unfold sum_scores. cbn [map fold_right]. cbn [Js.check] in H1, H2, H3, H4. lia.
  - destruct password as [|c rest]; [vm_compute; discriminate |].
    unfold Js.PasswordChecker.check. rewrite Js_check_logged_cons.
    cbn [fst Js.PasswordChecker.score]. lia.
  - unfold Js.PasswordChecker.check. rewrite Js_check_logged_cons.
    cbn [fst Js.PasswordChecker.results Js.PasswordChecker.criteria combine map snd].
    now rewrite !V.
  - unfold Js.PasswordChecker.check. rewrite Js_check_logged_cons.
    cbn [fst Js.PasswordChecker.score Js.PasswordChecker.results
         Js.PasswordChecker.criteria combine map snd].
    rewrite !V. apply Z.min_comm.
  - now rewrite Js_check_logged_cons.
  - reflexivity.
Qed.

(** What RepetitionCriterion decides, in both programs: a run of three
    equal characters counts unless the character is a line terminator,
    which the wildcard of the pattern does not match. *)
Lemma Cpp_repetition_met : forall password,
  met (Cpp.RepetitionCriterion.check password) = true <->
  ~ exists pre c post,
      password = pre ++ c :: c :: c :: post
      /\ Cpp.RepetitionCriterion.lineTerminator c = false.
Proof.
  intros password. unfold Cpp.RepetitionCriterion.check. cbn [met].
  rewrite regex_search_repetition, negb_true_iff, <- not_true_iff_false.
  now rewrite (has_run_spec Ascii.eqb Ascii.eqb_eq).
Qed.

Lemma Js_repetition_met : forall password,
  met (Js.RepetitionCriterion.check password) = true <->
  ~ exists pre c post,
      password = pre ++ c :: c :: c :: post
      /\ Js.RepetitionCriterion.lineTerminator c = false.
Proof.
  intros password. unfold Js.RepetitionCriterion.check. cbn [met].
  rewrite regex_search_repetition, negb_true_iff, <- not_true_iff_false.
  now rewrite (has_run_spec N.eqb N.eqb_eq).
Qed.

(** Away from line terminators the criterion is met exactly when the
    password has no run of three identical characters. *)
Lemma Cpp_repetition_plain : forall password,
  (forall c, In c password -> Cpp.RepetitionCriterion.lineTerminator c = false) ->
  (met (Cpp.RepetitionCriterion.check password) = true <-> ~ has_run3 password).
Proof.
  intros password H. rewrite Cpp_repetition_met. split.
  - intros N (pre & d & post & R). apply N. exists pre, d, post.
    split; [exact R |]. apply H. rewrite R. apply in_elt.
  - intros N (pre & d & post & R & _). apply N. now exists pre, d, post.
Qed.

Lemma Js_repetition_plain : forall password,
  (forall c, In c password -> Js.RepetitionCriterion.lineTerminator c = false) ->
  (met (Js.RepetitionCriterion.check password) = true <-> ~ has_run3 password).
Proof.
  intros password H. rewrite Js_repetition_met. split.
  - intros N (pre & d & post & R). apply N. exists pre, d, post.
    split; [exact R |]. apply H. rewrite R. apply in_elt.
  - intros N (pre & d & post & R & _). apply N. now exists pre, d, post.
Qed.

(** C3 fails on the code at a run of line terminators: three carriage
    returns or three line feeds in a row (main.cpp), three U+2028 line
    separators in a row (script.js) are a run of three identical
    characters, and yet the criterion is met with the score 15.  On the
    examples of the specification the criterion answers as stated. *)
Theorem C3_repetition_line_terminators :
  let cr := ascii_of_nat 13 in
  let lf := ascii_of_nat 10 in
  let ls := 8232%N in
  has_run3 [cr; cr; cr]
  /\ Cpp.RepetitionCriterion.check [cr; cr; cr]
     = mkResult true "No obvious triple repetitions found." 15
  /\ has_run3 [lf; lf; lf]
  /\ Cpp.RepetitionCriterion.check [lf; lf; lf]
     = mkResult true "No obvious triple repetitions found." 15
  /\ has_run3 [ls; ls; ls]
  /\ Js.RepetitionCriterion.check [ls; ls; ls]
     = mkResult true "No obvious triple repetitions found." 15
  /\ met (Cpp.RepetitionCriterion.check (Cpp.lit "aaa1")) = false
  /\ score (Cpp.RepetitionCriterion.check (Cpp.lit "aaa1")) = 0
  /\ met (Cpp.RepetitionCriterion.check (Cpp.lit "aa1")) = true
  /\ score (Cpp.RepetitionCriterion.check (Cpp.lit "aa1")) = 15
  /\ met (Js.RepetitionCriterion.check (Js.lit "aaa1")) = false
  /\ met (Js.RepetitionCriterion.check (Js.lit "aa1")) = true.
Proof.
  intros cr lf ls. split; [now exists [], cr, [] |].
  split; [reflexivity |].
  split; [now exists [], lf, [] |].
  split; [reflexivity |].
  split; [now exists [], ls, [] |].
  repeat split.
Qed.

(** C4: the score of ComplexityCriterion is the floor of 50 * typesMet / 4,
    where typesMet counts the classes (uppercase, lowercase, digit,
    special) that have a representative in the password; the counts
    0, 1, 2, 3, 4 give 0, 12, 25, 37, 50, and the criterion is met exactly
    when the count is 4.  It holds of every password, in both programs. *)
Theorem C4_complexity_score :
  (forall password,
     let t := typesPresent (codes password) in
     let r := Cpp.TypeCriterion.check password in
     0 <= t <= 4
     /\ score r = 50 * t / 4
     /\ score r = nth (Z.to_nat t) [0; 12; 25; 37; 50] 0
     /\ (met r = true <-> t = 4))
  /\
  (forall password,
     let t := typesPresent password in
     let r := Js.TypeCriterion.check password in
     0 <= t <= 4
     /\ score r = 50 * t / 4
     /\ score r = nth (Z.to_nat t) [0; 12; 25; 37; 50] 0
     /\ (met r = true <-> t = 4)).
Proof.
  assert (T : forall t, 0 <= t <= 4 ->
                        50 * t / 4 = nth (Z.to_nat t) [0; 12; 25; 37; 50] 0).
  { intros t H.
    assert (C : t = 0 \/ t = 1 \/ t = 2 \/ t = 3 \/ t = 4) by lia.
    destruct C as [-> | [-> | [-> | [-> | ->]]]]; reflexivity. }
  split; intros password t r; subst r;
    assert (R := typesPresent_range) ; specialize (R : forall cs, 0 <= typesPresent cs <= 4).
  - specialize (R (codes password)). fold t in R.
    rewrite Cpp_type_score, Cpp_type_met. fold t.
    repeat apply conj; try lia; try (now apply T);
      try (intros H; now apply Z.eqb_eq).
  - specialize (R password). fold t in R.
    rewrite Js_type_score, Js_type_met. fold t.
    repeat apply conj; try lia; try (now apply T);
      try (intros H; now apply Z.eqb_eq).
Qed.

(** LengthCriterion on the string as the program holds it: met exactly
    when it has 8 units or more (bytes in main.cpp, code units in
    script.js), with the score 25 or 0; when not met, the message names
    8 - length, which is positive. *)
Lemma length_criterion_units :
  (forall c rest,
     let password := c :: rest in
     let n := Z.of_nat (List.length password) in
     let r := Cpp.LengthCriterion.check password in
     (met r = true <-> 8 <= n)
     /\ score r = (if met r then 25 else 0)
     /\ (met r = false ->
         0 < 8 - n /\
         message r = ("Needs " ++ to_string (8 - n) ++ " more character(s).")%string))
  /\
  (forall c rest,
     let password := c :: rest in
     let n := Z.of_nat (List.length password) in
     let r := Js.LengthCriterion.check password in
     (met r = true <-> 8 <= n)
     /\ score r = (if met r then 25 else 0)
     /\ (met r = false ->
         0 < 8 - n /\
         message r = ("Needs " ++ to_string (8 - n) ++ " more character(s).")%string))
  /\ Cpp.LengthCriterion.check (Cpp.lit "abc")
     = mkResult false "Needs 5 more character(s)." 0
  /\ Js.LengthCriterion.check (Js.lit "abc")
     = mkResult false "Needs 5 more character(s)." 0.
Proof.
  split; [| split; [| split; reflexivity]].
  - intros c rest password n r. subst r.
    unfold Cpp.LengthCriterion.check, Cpp.length. fold n. cbn [met score message].
    split; [apply Z.leb_le |]. split; [reflexivity |].
    intros H. apply Z.leb_gt in H. split; [lia |].
    rewrite (proj2 (Z.leb_gt 8 n)) by exact H.
    unfold wrap_size_t. rewrite Z.mod_small; [reflexivity |].
    unfold n. split; [lia |]. apply Z.le_lt_trans with 8; [lia | reflexivity].
  - intros c rest password n r. subst r.
    unfold Js.LengthCriterion.check, Js.length. fold n. cbn [met score message].
    split; [apply Z.leb_le |]. split; [reflexivity |].
    intros H. apply Z.leb_gt in H. split; [lia |].
    rewrite (proj2 (Z.leb_gt 8 n)) by exact H.
    rewrite Z.max_r by lia. reflexivity.
Qed.

Lemma Cpp_lower_codes : forall password,
  codes (Cpp.DictionaryCriterion.lower password) = map lower_code (codes password).
Proof.
  intros. unfold codes, Cpp.DictionaryCriterion.lower. rewrite !map_map.
  apply map_ext. intros c. apply Cpp_tolower_code.
Qed.

Lemma existsb_false_iff : forall (X : Type) (p : X -> bool) (l : list X),
  existsb p l = false <-> forall x, In x l -> p x = false.
Proof.
  intros X p l. rewrite <- not_true_iff_false, existsb_exists. split.
  - intros H x Hin. apply not_true_iff_false. intros E. apply H. now exists x.
  - intros H (x & Hin & E). rewrite (H x Hin) in E. discriminate.
Qed.

Lemma Cpp_dictionary_met : forall password,
  met (Cpp.DictionaryCriterion.check password) = true <->
  forall w, In w weak_terms ->
            ~ contains (map lower_code (codes password)) (text_of w).
Proof.
  intros password.
  unfold Cpp.DictionaryCriterion.check, Cpp.DictionaryCriterion.check_with,
         Cpp.DictionaryCriterion.isWeak_in.
  cbn [met]. rewrite negb_true_iff, existsb_false_iff.
  rewrite <- Cpp_lower_codes.
  unfold Cpp.DictionaryCriterion.weakList. split.
  - intros H w Hw C.
    specialize (H (Cpp.lit w) (in_map Cpp.lit _ _ Hw)).
    apply not_true_iff_false in H. apply H.
    apply (find_found Ascii.eqb Ascii.eqb_eq).
    apply (contains_map_inj N_of_ascii N_of_ascii_inj). exact C.
  - intros H weak Hin. apply in_map_iff in Hin. destruct Hin as (w & <- & Hw).
    apply not_true_iff_false. intros F. apply (H w Hw).
    apply (find_found Ascii.eqb Ascii.eqb_eq) in F.
    apply (contains_map N_of_ascii) in F. exact F.
Qed.

Lemma Js_dictionary_met : forall unicodeLower password,
  met (Js.DictionaryCriterion.check unicodeLower password) = true <->
  forall w, In w weak_terms ->
            ~ contains (Js.toLowerCase unicodeLower password) (text_of w).
Proof.
  intros ul password. unfold Js.DictionaryCriterion.check.
  cbn [met]. rewrite negb_true_iff, existsb_false_iff.
  unfold Js.DictionaryCriterion.weakList. split.
  - intros H w Hw C.
    specialize (H (Js.lit w) (in_map Js.lit _ _ Hw)).
    apply not_true_iff_false in H. apply H.
    apply (includes_spec N.eqb N.eqb_eq). exact C.
  - intros H weak Hin. apply in_map_iff in Hin. destruct Hin as (w & <- & Hw).
    apply not_true_iff_false. intros F. apply (H w Hw).
    apply (includes_spec N.eqb N.eqb_eq) in F. exact F.
Qed.

(** The weak list of main.cpp is an unordered set: whatever order the
    loop visits it in, the verdict is the same. *)
Lemma Cpp_weakList_order : forall ws password,
  Permutation Cpp.DictionaryCriterion.weakList ws ->
  Cpp.DictionaryCriterion.check_with ws password
  = Cpp.DictionaryCriterion.check password.
Proof.
  intros ws password P.
  unfold Cpp.DictionaryCriterion.check, Cpp.DictionaryCriterion.check_with.
  replace (Cpp.DictionaryCriterion.isWeak_in ws (Cpp.DictionaryCriterion.lower password))
    with (Cpp.DictionaryCriterion.isWeak_in Cpp.DictionaryCriterion.weakList
            (Cpp.DictionaryCriterion.lower password)); [reflexivity |].
  unfold Cpp.DictionaryCriterion.isWeak_in.
  induction P as [| x l l' P IH | x y l | l l' l'' P1 IH1 P2 IH2]; cbn [existsb].
  - reflexivity.
  - now rewrite IH.
  - now rewrite !orb_assoc, (orb_comm (found _)).
  - congruence.
Qed.


Lemma unclassified_no_class : forall l,
  forallb unclassified l = true ->
  existsb is_upper l = false /\ existsb is_lower l = false /\
  existsb is_digit l = false /\ existsb is_special l = false.
Proof.
  intros l H. rewrite forallb_forall in H.
  repeat split; apply existsb_false_iff; intros x Hx;
    apply H, unclassified_classes in Hx; tauto.
Qed.

Lemma codes_app : forall a b, codes (a ++ b) = codes a ++ codes b.
Proof. intros. apply map_app. Qed.

Lemma Cpp_scan_insert : forall pre ins post,
  forallb unclassified (codes ins) = true ->
  Cpp.TypeCriterion.scan (pre ++ ins ++ post) = Cpp.TypeCriterion.scan (pre ++ post).
Proof.
  intros pre ins post H. rewrite !Cpp_scan_spec, !codes_app, !existsb_app.
  pose proof (unclassified_no_class _ H) as (E1 & E2 & E3 & E4).
  rewrite E1, E2, E3, E4. reflexivity.
Qed.

Lemma Js_scan_insert : forall pre ins post,
  forallb unclassified ins = true ->
  Js.TypeCriterion.scan (pre ++ ins ++ post) = Js.TypeCriterion.scan (pre ++ post).
Proof.
  intros pre ins post H. rewrite !Js_scan_spec, !existsb_app.
  pose proof (unclassified_no_class _ H) as (E1 & E2 & E3 & E4).
  rewrite E1, E2, E3, E4. reflexivity.
Qed.

Lemma Cpp_step_one_class : forall f c,
  Cpp.TypeCriterion.typesMet (Cpp.TypeCriterion.step f c)
  <= Cpp.TypeCriterion.typesMet f + 1.
Proof.
  intros [u l d s] c. unfold Cpp.TypeCriterion.step.
  destruct (Cpp.isupper _); [destruct u, l, d, s; cbv; discriminate |].
  destruct (Cpp.islower _); [destruct u, l, d, s; cbv; discriminate |].
  destruct (Cpp.isdigit _); [destruct u, l, d, s; cbv; discriminate |].
  destruct (found _); destruct u, l, d, s; cbv; discriminate.
Qed.

Lemma Js_step_one_class : forall f char,
  Js.TypeCriterion.typesMet (Js.TypeCriterion.step f char)
  <= Js.TypeCriterion.typesMet f + 1.
Proof.
  intros [u l d s] char. unfold Js.TypeCriterion.step.
  destruct (Js.ge char (Js.lit "A") && Js.le char (Js.lit "Z"));
    [destruct u, l, d, s; cbv; discriminate |].
  destruct (Js.ge char (Js.lit "a") && Js.le char (Js.lit "z"));
    [destruct u, l, d, s; cbv; discriminate |].
  destruct (Js.ge char (Js.lit "0") && Js.le char (Js.lit "9"));
    [destruct u, l, d, s; cbv; discriminate |].
  destruct (includes N.eqb Js.TypeCriterion.specials char);
    destruct u, l, d, s; cbv; discriminate.
Qed.

(** C5: a character outside the four classes (not an ASCII capital or
    small letter, not an ASCII digit, not in the special set) counts for
    no class, so inserting such characters anywhere leaves the verdict of
    ComplexityCriterion as it was; white space and every code from 128
    on (the bytes of non-ASCII text in main.cpp, the non-ASCII code
    units in script.js) are such characters.  The classes are tried in
    order and exclude one another, so a character sets at most one of
    the four flags. *)
Theorem C5_unclassified_ignored :
  (forall pre ins post,
     forallb unclassified (codes ins) = true ->
     Cpp.TypeCriterion.check (pre ++ ins ++ post) = Cpp.TypeCriterion.check (pre ++ post))
  /\
  (forall pre ins post,
     forallb unclassified ins = true ->
     Js.TypeCriterion.check (pre ++ ins ++ post) = Js.TypeCriterion.check (pre ++ post))
  /\ (forall n, (128 <= n)%N -> unclassified n = true)
  /\ unclassified 32 = true /\ unclassified 9 = true /\ unclassified 10 = true
  /\ (forall n, b2z (is_upper n) + b2z (is_lower n) + b2z (is_digit n)
                + b2z (is_special n) <= 1)
  /\ (forall f c, Cpp.TypeCriterion.typesMet (Cpp.TypeCriterion.step f c)
                  <= Cpp.TypeCriterion.typesMet f + 1)
  /\ (forall f char, Js.TypeCriterion.typesMet (Js.TypeCriterion.step f char)
                     <= Js.TypeCriterion.typesMet f + 1).
Proof.
  split; [| split; [| split; [| split; [| split; [| split; [| split; [| split]]]]]]].
  - intros pre ins post H. unfold Cpp.TypeCriterion.check.
    now rewrite (Cpp_scan_insert pre ins post H).
  - intros pre ins post H. unfold Js.TypeCriterion.check.
    now rewrite (Js_scan_insert pre ins post H).
  - apply beyond_ascii_unclassified.
  - reflexivity.
  - reflexivity.
  - reflexivity.
  - intros n. destruct (classes_disjoint n) as (Hu & Hl & Hd).
    destruct (is_upper n); [destruct (Hu eq_refl) as (-> & -> & ->); cbv; discriminate |].
    destruct (is_lower n); [destruct (Hl eq_refl) as (-> & ->); cbv; discriminate |].
    destruct (is_digit n); [rewrite (Hd eq_refl); cbv; discriminate |].
    destruct (is_special n); cbv; discriminate.
  - apply Cpp_step_one_class.
  - apply Js_step_one_class.
Qed.

(** C5 at work: a space, a tab and the two bytes of a non-ASCII letter
    inserted into "aB3" (main.cpp); a space and a lone surrogate inserted
    into "aB3" (script.js). *)
Lemma C5_unclassified_ignored_witness :
  Cpp.TypeCriterion.check
    (Cpp.lit "aB" ++ [ascii_of_nat 32; ascii_of_nat 9; ascii_of_nat 195; ascii_of_nat 169]
                  ++ Cpp.lit "3")
  = Cpp.TypeCriterion.check (Cpp.lit "aB" ++ Cpp.lit "3")
  /\
  Js.TypeCriterion.check (Js.lit "aB" ++ [32; 55357]%N ++ Js.lit "3")
  = Js.TypeCriterion.check (Js.lit "aB" ++ Js.lit "3").
Proof.
  split.
  - apply (proj1 C5_unclassified_ignored). reflexivity.
  - apply (proj1 (proj2 C5_unclassified_ignored)). reflexivity.
Defined.

(** A criterion is met exactly when it awards its maximum score. *)
Lemma Cpp_met_full_score : forall c password,
  met (Cpp.check c password) = true <->
  score (Cpp.check c password) = Cpp.scoreValue c.
Proof.
  intros [] password; cbn [Cpp.check Cpp.scoreValue].
  - unfold Cpp.LengthCriterion.check. cbn [met score].
    destruct (8 <=? Cpp.length password); split; (reflexivity || discriminate).
  - rewrite Cpp_type_met, Cpp_type_score, Z.eqb_eq.
    assert (R := typesPresent_range (codes password)).
    set (t := typesPresent (codes password)) in *.
    assert (C : t = 0 \/ t = 1 \/ t = 2 \/ t = 3 \/ t = 4) by lia.
    destruct C as [-> | [-> | [-> | [-> | ->]]]]; split; (reflexivity || discriminate).
  - unfold Cpp.RepetitionCriterion.check. cbn [met score].
    destruct (negb _); split; (reflexivity || discriminate).
  - unfold Cpp.DictionaryCriterion.check, Cpp.DictionaryCriterion.check_with.
    cbn [met score]. destruct (negb _); split; (reflexivity || discriminate).
Qed.

Lemma Js_met_full_score : forall unicodeLower c password,
  met (Js.check unicodeLower c password) = true <->
  score (Js.check unicodeLower c password) = Js.scoreValue c.
Proof.
  intros ul [] password; cbn [Js.check Js.scoreValue].
  - unfold Js.LengthCriterion.check. cbn [met score].
    destruct (8 <=? Js.length password); split; (reflexivity || discriminate).
  - rewrite Js_type_met, Js_type_score, Z.eqb_eq.
    assert (R := typesPresent_range password).
    set (t := typesPresent password) in *.
    assert (C : t = 0 \/ t = 1 \/ t = 2 \/ t = 3 \/ t = 4) by lia.
    destruct C as [-> | [-> | [-> | [-> | ->]]]]; split; (reflexivity || discriminate).
  - unfold Js.RepetitionCriterion.check. cbn [met score].
    destruct (negb _); split; (reflexivity || discriminate).
  - unfold Js.DictionaryCriterion.check.
    cbn [met score]. destruct (negb _); split; (reflexivity || discriminate).
Qed.

(** Four scores within their ranges add up to 100 only at their maxima. *)
Lemma full_total : forall a b c d,
  0 <= a <= 25 -> 0 <= b <= 50 -> 0 <= c <= 15 -> 0 <= d <= 10 ->
  (Z.min (a + (b + (c + (d + 0)))) 100 = 100
   <-> a = 25 /\ b = 50 /\ c = 15 /\ d = 10).
Proof. intros. lia. Qed.

Lemma Cpp_total_100 : forall c rest,
  let password := c :: rest in
  Cpp.PasswordChecker.score (Cpp.PasswordChecker.check password) = 100 <->
  met (Cpp.LengthCriterion.check password) = true /\
  met (Cpp.TypeCriterion.check password) = true /\
  met (Cpp.RepetitionCriterion.check password) = true /\
  met (Cpp.DictionaryCriterion.check password) = true.
Proof.
  intros c rest password.
  unfold Cpp.PasswordChecker.check. unfold password at 1.
  rewrite Cpp_check_logged_cons. fold password.
  cbn [fst Cpp.PasswordChecker.score]. unfold sum_scores. cbn [map fold_right].
  rewrite full_total
    by first [apply (Cpp_score_range Cpp.Length) | apply (Cpp_score_range Cpp.Complexity)
             | apply (Cpp_score_range Cpp.Repetition)
             | apply (Cpp_score_range Cpp.Dictionary)].
  pose proof (Cpp_met_full_score Cpp.Length password) as M1.
  pose proof (Cpp_met_full_score Cpp.Complexity password) as M2.
  pose proof (Cpp_met_full_score Cpp.Repetition password) as M3.
  pose proof (Cpp_met_full_score Cpp.Dictionary password) as M4.
  cbn [Cpp.check Cpp.scoreValue] in M1, M2, M3, M4.
  unfold Cpp.LengthCriterion.scoreValue in M1. unfold Cpp.TypeCriterion.scoreValue in M2.
  unfold Cpp.RepetitionCriterion.scoreValue in M3.
  unfold Cpp.DictionaryCriterion.scoreValue in M4.
  tauto.
Qed.

Lemma Js_total_100 : forall unicodeLower c rest,
  let password := c :: rest in
  Js.PasswordChecker.score (Js.PasswordChecker.check unicodeLower password) = 100 <->
  met (Js.LengthCriterion.check password) = true /\
  met (Js.TypeCriterion.check password) = true /\
  met (Js.RepetitionCriterion.check password) = true /\
  met (Js.DictionaryCriterion.check unicodeLower password) = true.
Proof.
  intros ul c rest password.
  unfold Js.PasswordChecker.check. unfold password at 1.
  rewrite Js_check_logged_cons. fold password.
  cbn [fst Js.PasswordChecker.score]. unfold sum_scores. cbn [map fold_right].
  rewrite full_total
    by first [apply (Js_score_range ul Js.Length) | apply (Js_score_range ul Js.Complexity)
             | apply (Js_score_range ul Js.Repetition)
             | apply (Js_score_range ul Js.Dictionary)].
  pose proof (Js_met_full_score ul Js.Length password) as M1.
  pose proof (Js_met_full_score ul Js.Complexity password) as M2.
  pose proof (Js_met_full_score ul Js.Repetition password) as M3.
  pose proof (Js_met_full_score ul Js.Dictionary password) as M4.
  cbn [Js.check Js.scoreValue] in M1, M2, M3, M4.
  unfold Js.LengthCriterion.scoreValue in M1. unfold Js.TypeCriterion.scoreValue in M2.
  unfold Js.RepetitionCriterion.scoreValue in M3.
  unfold Js.DictionaryCriterion.scoreValue in M4.
  tauto.
Qed.

Lemma Exists_class : forall (cls : N -> bool) (l : list N),
  Exists (fun n => cls n = true) l <-> existsb cls l = true.
Proof. intros. now rewrite Exists_exists, existsb_exists. Qed.

Lemma all_classes : forall cs,
  Exists (fun n => is_upper n = true) cs -> Exists (fun n => is_lower n = true) cs ->
  Exists (fun n => is_digit n = true) cs -> Exists (fun n => is_special n = true) cs ->
  typesPresent cs = 4.
Proof.
  intros cs Hu Hl Hd Hs. apply Exists_class in Hu, Hl, Hd, Hs.
  unfold typesPresent. now rewrite Hu, Hl, Hd, Hs.
Qed.

Lemma no_run3_by_check : forall (A : Type) (eqb : A -> A -> bool),
  (forall a b, eqb a b = true <-> a = b) ->
  forall s, has_run eqb (fun _ => false) s = false -> ~ has_run3 s.
Proof.
  intros A eqb eqb_eq s H (pre & c & post & E).
  apply not_true_iff_false in H. apply H.
  apply (has_run_spec eqb eqb_eq). now exists pre, c, post.
Qed.

Lemma not_contains_by_check : forall s w,
  includes N.eqb s w = false -> ~ contains s w.
Proof.
  intros s w H C. apply (includes_spec N.eqb N.eqb_eq) in C. congruence.
Qed.

(** A string of 8 units or more that has a unit of each class, no run of
    three equal units and no weak term inside its lower-cased form gets
    the total score 100. *)
Lemma strong_units_score_100 :
  (forall password : Cpp.str,
     8 <= Z.of_nat (List.length password) ->
     Exists (fun n => is_upper n = true) (codes password) ->
     Exists (fun n => is_lower n = true) (codes password) ->
     Exists (fun n => is_digit n = true) (codes password) ->
     Exists (fun n => is_special n = true) (codes password) ->
     ~ has_run3 password ->
     (forall w, In w weak_terms ->
                ~ contains (map lower_code (codes password)) (text_of w)) ->
     Cpp.PasswordChecker.score (Cpp.PasswordChecker.check password) = 100)
  /\
  (forall (unicodeLower : Js.str -> Js.str) (password : Js.str),
     8 <= Z.of_nat (List.length password) ->
     Exists (fun n => is_upper n = true) password ->
     Exists (fun n => is_lower n = true) password ->
     Exists (fun n => is_digit n = true) password ->
     Exists (fun n => is_special n = true) password ->
     ~ has_run3 password ->
     (forall w, In w weak_terms ->
                ~ contains (Js.toLowerCase unicodeLower password) (text_of w)) ->
     Js.PasswordChecker.score (Js.PasswordChecker.check unicodeLower password) = 100).
Proof.
  split.
  - intros password Hlen Hu Hl Hd Hs Hrun Hweak.
    destruct password as [|c rest]; [simpl in Hlen; lia |].
    apply Cpp_total_100. repeat apply conj.
    + unfold Cpp.LengthCriterion.check, Cpp.length. cbn [met]. now apply Z.leb_le.
    + rewrite Cpp_type_met. apply Z.eqb_eq. now apply all_classes.
    + unfold Cpp.RepetitionCriterion.check. cbn [met].
      now rewrite (regex_search_no_run Ascii.eqb Ascii.eqb_eq).
    + now apply Cpp_dictionary_met.
  - intros ul password Hlen Hu Hl Hd Hs Hrun Hweak.
    destruct password as [|c rest]; [simpl in Hlen; lia |].
    apply Js_total_100. repeat apply conj.
    + unfold Js.LengthCriterion.check, Js.length. cbn [met]. now apply Z.leb_le.
    + rewrite Js_type_met. apply Z.eqb_eq. now apply all_classes.
    + unfold Js.RepetitionCriterion.check. cbn [met].
      now rewrite (regex_search_no_run N.eqb N.eqb_eq).
    + now apply Js_dictionary_met.
Qed.

(** C9: each criterion is met exactly when it awards its maximum score
    (25, 50, 15 and 10 for Length, Complexity, Repetition and Dictionary),
    and so the total of a non-empty password is 100 exactly when the four
    met flags are all true; in both programs. *)
Theorem C9_met_iff_maximum :
  (forall c password,
     met (Cpp.check c password) = true <->
     score (Cpp.check c password) = Cpp.scoreValue c)
  /\ map Cpp.scoreValue Cpp.PasswordChecker.criteria = [25; 50; 15; 10]
  /\ (forall c rest,
        let report := Cpp.PasswordChecker.check (c :: rest) in
        Cpp.PasswordChecker.score report = 100 <->
        map met (Cpp.PasswordChecker.results report) = [true; true; true; true])
  /\ (forall unicodeLower c password,
        met (Js.check unicodeLower c password) = true <->
        score (Js.check unicodeLower c password) = Js.scoreValue c)
  /\ map Js.scoreValue Js.PasswordChecker.criteria = [25; 50; 15; 10]
  /\ (forall unicodeLower c rest,
        let report := Js.PasswordChecker.check unicodeLower (c :: rest) in
        Js.PasswordChecker.score report = 100 <->
        map Js.Entry.met (Js.PasswordChecker.results report) = [true; true; true; true]).
Proof.
  split; [exact Cpp_met_full_score |]. split; [reflexivity |].
  split; [| split; [exact Js_met_full_score |]; split; [reflexivity |]].
  - intros c rest report. subst report. rewrite Cpp_total_100.
    unfold Cpp.PasswordChecker.check. rewrite Cpp_check_logged_cons.
    cbn [fst Cpp.PasswordChecker.results map]. split.
    + intros (H1 & H2 & H3 & H4). congruence.
    + intros H. injection H as H1 H2 H3 H4. auto.
  - intros ul c rest report. subst report. rewrite Js_total_100.
    unfold Js.PasswordChecker.check. rewrite Js_check_logged_cons.
    cbn [fst Js.PasswordChecker.results Js.PasswordChecker.criteria combine map
         snd Js.Entry.spread Js.Entry.met].
    split.
    + intros (H1 & H2 & H3 & H4). congruence.
    + intros H. injection H as H1 H2 H3 H4. auto.
Qed.

(** * The two programs on the same text *)

Lemma utf8_ascii : forall text,
  forallb is_ascii text = true -> utf8 text = map ascii_of_N text.
Proof.
  induction text as [|n text IH]; intros H; [reflexivity |].
  simpl in H. apply andb_true_iff in H. destruct H as [Hn Ht].
  unfold utf8 in *. cbn [flat_map map]. rewrite IH by exact Ht.
  unfold utf8_of_code_point. unfold is_ascii in Hn. now rewrite Hn.
Qed.

Lemma utf16_ascii : forall text, forallb is_ascii text = true -> utf16 text = text.
Proof.
  induction text as [|n text IH]; intros H; [reflexivity |].
  simpl in H. apply andb_true_iff in H. destruct H as [Hn Ht].
  unfold utf16 in *. cbn [flat_map]. rewrite IH by exact Ht.
  unfold utf16_of_code_point. unfold is_ascii in Hn. apply N.ltb_lt in Hn.
  now rewrite (proj2 (N.ltb_lt n 65536)) by lia.
Qed.

Lemma codes_of_ascii : forall text,
  forallb is_ascii text = true -> codes (map ascii_of_N text) = text.
Proof.
  induction text as [|n text IH]; intros H; [reflexivity |].
  simpl in H. apply andb_true_iff in H. destruct H as [Hn Ht].
  unfold codes in *. cbn [map]. rewrite IH by exact Ht.
  unfold is_ascii in Hn. apply N.ltb_lt in Hn.
  now rewrite N_ascii_embedding by lia.
Qed.

Lemma ascii_eqb_of_N : forall a b,
  (a < 256)%N -> (b < 256)%N ->
  Ascii.eqb (ascii_of_N a) (ascii_of_N b) = N.eqb a b.
Proof.
  intros a b Ha Hb. apply eq_true_iff_eq. rewrite Ascii.eqb_eq, N.eqb_eq. split.
  - intros H. apply (f_equal N_of_ascii) in H.
    now rewrite !N_ascii_embedding in H by assumption.
  - now intros ->.
Qed.

Lemma length_agrees : forall text,
  Cpp.LengthCriterion.check (map ascii_of_N text) = Js.LengthCriterion.check text.
Proof.
  intros text. unfold Cpp.LengthCriterion.check, Js.LengthCriterion.check,
    Cpp.length, Js.length.
  rewrite length_map. set (n := Z.of_nat (List.length text)).
  destruct (8 <=? n) eqn:E; [reflexivity |].
  apply Z.leb_gt in E. unfold wrap_size_t.
  rewrite Z.mod_small, Z.max_r; [reflexivity | lia |].
  split; [lia |]. apply Z.le_lt_trans with 8; [unfold n; lia | reflexivity].
Qed.

Lemma complexity_agrees : forall text,
  forallb is_ascii text = true ->
  Cpp.TypeCriterion.check (map ascii_of_N text) = Js.TypeCriterion.check text.
Proof.
  intros text H. unfold Cpp.TypeCriterion.check, Js.TypeCriterion.check.
  rewrite Cpp_scan_spec, Js_scan_spec, codes_of_ascii by exact H.
  destruct (existsb is_upper text), (existsb is_lower text),
           (existsb is_digit text), (existsb is_special text); reflexivity.
Qed.

Lemma repetition_agrees : forall text,
  forallb is_ascii text = true ->
  Cpp.RepetitionCriterion.check (map ascii_of_N text) = Js.RepetitionCriterion.check text.
Proof.
  intros text H. unfold Cpp.RepetitionCriterion.check, Js.RepetitionCriterion.check.
  rewrite !regex_search_repetition.
  rewrite (has_run_map ascii_of_N N.eqb Ascii.eqb Js.RepetitionCriterion.lineTerminator
             Cpp.RepetitionCriterion.lineTerminator); [reflexivity | |];
    rewrite forallb_forall in H.
  - intros a b Ha Hb. apply H in Ha, Hb. unfold is_ascii in Ha, Hb.
    apply N.ltb_lt in Ha, Hb. apply ascii_eqb_of_N; lia.
  - intros a Ha. apply H in Ha. unfold is_ascii in Ha. apply N.ltb_lt in Ha.
    unfold Cpp.RepetitionCriterion.lineTerminator, Js.RepetitionCriterion.lineTerminator.
    change (ascii_of_nat 10) with (ascii_of_N 10).
    change (ascii_of_nat 13) with (ascii_of_N 13).
    rewrite !ascii_eqb_of_N by lia.
    rewrite (proj2 (N.eqb_neq a 8232)), (proj2 (N.eqb_neq a 8233)) by lia.
    now rewrite !orb_false_r.
Qed.

Lemma dictionary_agrees : forall unicodeLower text,
  forallb is_ascii text = true ->
  Cpp.DictionaryCriterion.check (map ascii_of_N text)
  = Js.DictionaryCriterion.check unicodeLower text.
Proof.
  intros ul text H.
  assert (E : met (Cpp.DictionaryCriterion.check (map ascii_of_N text))
              = met (Js.DictionaryCriterion.check ul text)).
  { apply eq_true_iff_eq.
    rewrite Cpp_dictionary_met, Js_dictionary_met.
    now rewrite codes_of_ascii, Js_toLowerCase_ascii by exact H. }
  unfold Cpp.DictionaryCriterion.check, Cpp.DictionaryCriterion.check_with,
         Js.DictionaryCriterion.check in *.
  cbn [met] in E. now rewrite E.
Qed.

(** C10 as stated fails.  The text of four letters e-acute (U+00E9) is
    eight bytes in UTF-8 and four code units in UTF-16: main.cpp finds
    the length criterion met and no repetition, script.js finds neither,
    whatever the case tables. *)
Lemma C10_programs_differ :
  ~ exists unicodeLower, forall text,
      same_report (Cpp.PasswordChecker.check (utf8 text))
                  (Js.PasswordChecker.check unicodeLower (utf16 text)).
Proof.
  intros [ul H]. specialize (H [233; 233; 233; 233]%N).
  destruct H as (_ & Hm & _).
  vm_compute in Hm. discriminate Hm.
Qed.

(** C10 (amended): for every password made of ASCII characters only,
    the report of main.cpp and the report of script.js are equal: the same
    total and, position by position, the same verdict (met flag, message
    and score). *)
Theorem C10_programs_agree_on_ascii : forall unicodeLower text,
  forallb is_ascii text = true ->
  same_report (Cpp.PasswordChecker.check (utf8 text))
              (Js.PasswordChecker.check unicodeLower (utf16 text))
  /\ Cpp.PasswordChecker.results (Cpp.PasswordChecker.check (utf8 text))
     = map Js.Entry.verdict
           (Js.PasswordChecker.results
              (Js.PasswordChecker.check unicodeLower (utf16 text))).
Proof.
  intros ul text H.
  rewrite utf8_ascii, utf16_ascii by exact H.
  destruct text as [|n text]; [repeat split |].
  unfold same_report, Cpp.PasswordChecker.check, Js.PasswordChecker.check.
  cbn [map]. rewrite Cpp_check_logged_cons, Js_check_logged_cons.
  change (ascii_of_N n :: map ascii_of_N text) with (map ascii_of_N (n :: text)).
  rewrite length_agrees, (complexity_agrees _ H), (repetition_agrees _ H),
          (dictionary_agrees ul _ H).
  cbn [fst Cpp.PasswordChecker.score Cpp.PasswordChecker.results
       Js.PasswordChecker.score Js.PasswordChecker.results
       Js.PasswordChecker.criteria combine map snd].
  repeat split.
Qed.

(** C10 (amended) at the password Ab1!, for which both programs report
    the total 75. *)
Lemma C10_programs_agree_on_ascii_witness :
  same_report (Cpp.PasswordChecker.check (utf8 (text_of "Ab1!")))
              (Js.PasswordChecker.check no_case_table (utf16 (text_of "Ab1!")))
  /\ Cpp.PasswordChecker.score (Cpp.PasswordChecker.check (utf8 (text_of "Ab1!"))) = 75.
Proof.
  split.
  - apply (C10_programs_agree_on_ascii no_case_table (text_of "Ab1!")). reflexivity.
  - reflexivity.
Defined.

(** * Further properties of the code *)

Lemma append_assoc : forall a b c : string, ((a ++ b) ++ c = a ++ (b ++ c))%string.
Proof.
  induction a as [|x a IH]; intros b c; simpl; [reflexivity | now rewrite IH].
Qed.

Lemma existsb_perm : forall (X : Type) (f : X -> bool) (l l' : list X),
  Permutation l l' -> existsb f l = existsb f l'.
Proof.
  intros X f l l' P.
  induction P as [| x l l' P IH | x y l | l l' l'' P1 IH1 P2 IH2]; cbn [existsb].
  - reflexivity.
  - now rewrite IH.
  - now rewrite !orb_assoc, (orb_comm (f y)).
  - congruence.
Qed.

Lemma contains_head : forall (X : Type) (s : list X) (c : X) (w : list X),
  contains s (c :: w) -> In c s.
Proof.
  intros X s c w (pre & post & ->). apply in_or_app. right. now left.
Qed.

Lemma contains_extend : forall (X : Type) (pre s post w : list X),
  contains s w -> contains (pre ++ s ++ post) w.
Proof.
  intros X pre s post w (a & b & ->). exists (pre ++ a), (b ++ post).
  now rewrite <- !app_assoc.
Qed.

Lemma weak_term_head : forall w,
  In w weak_terms ->
  exists c rest, text_of w = c :: rest /\ (is_lower c || is_digit c) = true.
Proof.
  intros w Hw.
  repeat (destruct Hw as [<- | Hw]; [eexists; eexists; split; reflexivity |]).
  destruct Hw.
Qed.

Lemma class_present : forall (cls : N -> bool) cs n,
  In n cs -> cls n = true -> existsb cls cs = true.
Proof. intros cls cs n Hin H. apply existsb_exists. now exists n. Qed.

(** A text whose lower-cased form holds a weak term has a letter or a
    digit. *)
Lemma weak_has_alnum : forall cs w,
  In w weak_terms -> contains (map lower_code cs) (text_of w) ->
  1 <= typesPresent cs.
Proof.
  intros cs w Hw C.
  destruct (weak_term_head w Hw) as (c & rest & E & Hc). rewrite E in C.
  apply contains_head, in_map_iff in C. destruct C as (n & <- & Hin).
  unfold lower_code in Hc. unfold typesPresent.
  destruct (is_upper n) eqn:U.
  - rewrite (class_present is_upper cs n Hin U).
    destruct (existsb is_lower cs), (existsb is_digit cs), (existsb is_special cs);
      cbv; discriminate.
  - apply orb_true_iff in Hc. destruct Hc as [L | D].
    + rewrite (class_present is_lower cs n Hin L).
      destruct (existsb is_upper cs), (existsb is_digit cs), (existsb is_special cs);
        cbv; discriminate.
    + rewrite (class_present is_digit cs n Hin D).
      destruct (existsb is_upper cs), (existsb is_lower cs), (existsb is_special cs);
        cbv; discriminate.
Qed.

Lemma Cpp_dictionary_weak : forall password,
  met (Cpp.DictionaryCriterion.check password) = false ->
  exists w, In w weak_terms /\ contains (map lower_code (codes password)) (text_of w).
Proof.
  intros password H.
  unfold Cpp.DictionaryCriterion.check, Cpp.DictionaryCriterion.check_with,
         Cpp.DictionaryCriterion.isWeak_in in H.
  cbn [met] in H. apply negb_false_iff, existsb_exists in H.
  destruct H as (weak & Hin & F).
  unfold Cpp.DictionaryCriterion.weakList in Hin. apply in_map_iff in Hin.
  destruct Hin as (w & <- & Hw). exists w. split; [exact Hw |].
  rewrite <- Cpp_lower_codes.
  apply (find_found Ascii.eqb Ascii.eqb_eq) in F.
  apply (contains_map N_of_ascii) in F. exact F.
Qed.

Lemma Js_dictionary_weak : forall unicodeLower password,
  met (Js.DictionaryCriterion.check unicodeLower password) = false ->
  exists w, In w weak_terms
            /\ contains (Js.toLowerCase unicodeLower password) (text_of w).
Proof.
  intros ul password H. unfold Js.DictionaryCriterion.check in H.
  cbn [met] in H. apply negb_false_iff, existsb_exists in H.
  destruct H as (weak & Hin & F).
  unfold Js.DictionaryCriterion.weakList in Hin. apply in_map_iff in Hin.
  destruct Hin as (w & <- & Hw). exists w. split; [exact Hw |].
  apply (includes_spec N.eqb N.eqb_eq) in F. exact F.
Qed.

Lemma one_class_scores_12 : forall t, 1 <= t <= 4 -> 12 <= 50 * t / 4.
Proof.
  intros t H.
  assert (C : t = 1 \/ t = 2 \/ t = 3 \/ t = 4) by lia.
  destruct C as [-> | [-> | [-> | ->]]]; cbv; discriminate.
Qed.

Lemma Cpp_sum_at_least_10 : forall password,
  10 <= sum_scores [Cpp.LengthCriterion.check password; Cpp.TypeCriterion.check password;
                    Cpp.RepetitionCriterion.check password;
                    Cpp.DictionaryCriterion.check password].
Proof.
  intros password. unfold sum_scores. cbn [map fold_right].
  assert (H1 := Cpp_score_range Cpp.Length password).
  assert (H2 := Cpp_score_range Cpp.Complexity password).
  assert (H3 := Cpp_score_range Cpp.Repetition password).
  assert (H4 := Cpp_score_range Cpp.Dictionary password).
  cbn [Cpp.check] in H1, H2, H3, H4.
  destruct (met (Cpp.DictionaryCriterion.check password)) eqn:M.
  - apply (Cpp_met_full_score Cpp.Dictionary) in M.
    cbn [Cpp.check Cpp.scoreValue] in M.
    unfold Cpp.DictionaryCriterion.scoreValue in M. lia.
  - apply Cpp_dictionary_weak in M. destruct M as (w & Hw & C).
    assert (T := weak_has_alnum _ w Hw C).
    assert (R := typesPresent_range (codes password)).
    assert (S := one_class_scores_12 (typesPresent (codes password))).
    rewrite Cpp_type_score in *. lia.
Qed.

Lemma Js_sum_at_least_10 : forall unicodeLower password,
  forallb is_ascii password = true ->
  10 <= sum_scores [Js.LengthCriterion.check password; Js.TypeCriterion.check password;
                    Js.RepetitionCriterion.check password;
                    Js.DictionaryCriterion.check unicodeLower password].
Proof.
  intros ul password A. unfold sum_scores. cbn [map fold_right].
  assert (H1 := Js_score_range ul Js.Length password).
  assert (H2 := Js_score_range ul Js.Complexity password).
  assert (H3 := Js_score_range ul Js.Repetition password).
  assert (H4 := Js_score_range ul Js.Dictionary password).
  cbn [Js.check] in H1, H2, H3, H4.
  destruct (met (Js.DictionaryCriterion.check ul password)) eqn:M.
  - apply (Js_met_full_score ul Js.Dictionary) in M.
    cbn [Js.check Js.scoreValue] in M.
    unfold Js.DictionaryCriterion.scoreValue in M. lia.
  - apply Js_dictionary_weak in M. destruct M as (w & Hw & C).
    rewrite Js_toLowerCase_ascii in C by exact A.
    assert (T := weak_has_alnum _ w Hw C).
    assert (R := typesPresent_range password).
    assert (S := one_class_scores_12 (typesPresent password)).
    rewrite Js_type_score in *. lia.
Qed.

Lemma sum_at_most_100 : forall a b c d,
  0 <= a <= 25 -> 0 <= b <= 50 -> 0 <= c <= 15 -> 0 <= d <= 10 ->
  Z.min (a + (b + (c + (d + 0)))) 100 = a + (b + (c + (d + 0))).
Proof. intros. lia. Qed.

Lemma Cpp_score_is_sum : forall c rest,
  Cpp.PasswordChecker.score (Cpp.PasswordChecker.check (c :: rest))
  = sum_scores [Cpp.LengthCriterion.check (c :: rest); Cpp.TypeCriterion.check (c :: rest);
                Cpp.RepetitionCriterion.check (c :: rest);
                Cpp.DictionaryCriterion.check (c :: rest)].
Proof.
  intros c rest. unfold Cpp.PasswordChecker.check. rewrite Cpp_check_logged_cons.
  cbn [fst Cpp.PasswordChecker.score]. unfold sum_scores. cbn [map fold_right].
  apply sum_at_most_100;
    first [apply (Cpp_score_range Cpp.Length) | apply (Cpp_score_range Cpp.Complexity)
          | apply (Cpp_score_range Cpp.Repetition) | apply (Cpp_score_range Cpp.Dictionary)].
Qed.

Lemma Js_score_is_sum : forall unicodeLower c rest,
  Js.PasswordChecker.score (Js.PasswordChecker.check unicodeLower (c :: rest))
  = sum_scores [Js.LengthCriterion.check (c :: rest); Js.TypeCriterion.check (c :: rest);
                Js.RepetitionCriterion.check (c :: rest);
                Js.DictionaryCriterion.check unicodeLower (c :: rest)].
Proof.
  intros ul c rest. unfold Js.PasswordChecker.check. rewrite Js_check_logged_cons.
  cbn [fst Js.PasswordChecker.score]. unfold sum_scores. cbn [map fold_right].
  apply sum_at_most_100;
    first [apply (Js_score_range ul Js.Length) | apply (Js_score_range ul Js.Complexity)
          | apply (Js_score_range ul Js.Repetition)
          | apply (Js_score_range ul Js.Dictionary)].
Qed.

(** X1: the clamp at 100 never cuts anything off.  For a non-empty
    password the total is the plain sum of the four scores, which is at
    most 100 (and the 32-bit accumulation of main.cpp never wraps). *)
Theorem X1_total_is_plain_sum :
  (forall c rest,
     let report := Cpp.PasswordChecker.check (c :: rest) in
     Cpp.PasswordChecker.score report = sum_scores (Cpp.PasswordChecker.results report)
     /\ sum_scores (Cpp.PasswordChecker.results report) <= 100)
  /\
  (forall unicodeLower c rest,
     let report := Js.PasswordChecker.check unicodeLower (c :: rest) in
     Js.PasswordChecker.score report
     = sum_scores (map Js.Entry.verdict (Js.PasswordChecker.results report))
     /\ sum_scores (map Js.Entry.verdict (Js.PasswordChecker.results report)) <= 100).
Proof.
  split.
  - intros c rest report.
    assert (E : Cpp.PasswordChecker.results report
                = [Cpp.LengthCriterion.check (c :: rest); Cpp.TypeCriterion.check (c :: rest);
                   Cpp.RepetitionCriterion.check (c :: rest);
                   Cpp.DictionaryCriterion.check (c :: rest)]).
    { unfold report, Cpp.PasswordChecker.check. now rewrite Cpp_check_logged_cons. }
    rewrite E. unfold report. rewrite Cpp_score_is_sum. split; [reflexivity |].
    unfold sum_scores. cbn [map fold_right].
    assert (H1 := Cpp_score_range Cpp.Length (c :: rest)).
    assert (H2 := Cpp_score_range Cpp.Complexity (c :: rest)).
    assert (H3 := Cpp_score_range Cpp.Repetition (c :: rest)).
    assert (H4 := Cpp_score_range Cpp.Dictionary (c :: rest)).
    cbv [Cpp.check Cpp.scoreValue Cpp.LengthCriterion.scoreValue
         Cpp.TypeCriterion.scoreValue Cpp.RepetitionCriterion.scoreValue
         Cpp.DictionaryCriterion.scoreValue] in H1, H2, H3, H4.
    lia.
  - intros ul c rest report.
    assert (E : map Js.Entry.verdict (Js.PasswordChecker.results report)
                = [Js.LengthCriterion.check (c :: rest); Js.TypeCriterion.check (c :: rest);
                   Js.RepetitionCriterion.check (c :: rest);
                   Js.DictionaryCriterion.check ul (c :: rest)]).
    { unfold report, Js.PasswordChecker.check. now rewrite Js_check_logged_cons. }
    rewrite E. unfold report. rewrite Js_score_is_sum. split; [reflexivity |].
    unfold sum_scores. cbn [map fold_right].
    assert (H1 := Js_score_range ul Js.Length (c :: rest)).
    assert (H2 := Js_score_range ul Js.Complexity (c :: rest)).
    assert (H3 := Js_score_range ul Js.Repetition (c :: rest)).
    assert (H4 := Js_score_range ul Js.Dictionary (c :: rest)).
    cbv [Js.check Js.scoreValue Js.LengthCriterion.scoreValue
         Js.TypeCriterion.scoreValue Js.RepetitionCriterion.scoreValue
         Js.DictionaryCriterion.scoreValue] in H1, H2, H3, H4.
    lia.
Qed.

(** X2: whatever the password, the score a criterion awards lies between
    0 and the maximum score of that criterion. *)
Theorem X2_score_within_maximum :
  (forall c password, 0 <= score (Cpp.check c password) <= Cpp.scoreValue c)
  /\
  (forall unicodeLower c password,
     0 <= score (Js.check unicodeLower c password) <= Js.scoreValue c).
Proof. split; [exact Cpp_score_range | exact Js_score_range]. Qed.

(** X3: a non-empty password never scores less than 10: either the
    dictionary criterion is met (10 points), or the password holds a weak
    term and with it a letter or a digit (12 points of complexity at
    least).  So main.cpp reports the total 0 for the empty password only;
    script.js does so for every password within ASCII. *)
Theorem X3_nonempty_scores_at_least_10 :
  (forall c rest,
     10 <= Cpp.PasswordChecker.score (Cpp.PasswordChecker.check (c :: rest)))
  /\
  (forall password,
     Cpp.PasswordChecker.score (Cpp.PasswordChecker.check password) = 0
     <-> password = [])
  /\
  (forall unicodeLower c rest,
     forallb is_ascii (c :: rest) = true ->
     10 <= Js.PasswordChecker.score (Js.PasswordChecker.check unicodeLower (c :: rest))).
Proof.
  split; [| split].
  - intros c rest. rewrite Cpp_score_is_sum. apply Cpp_sum_at_least_10.
  - intros [|c rest]; split; intros H; try reflexivity; try discriminate.
    exfalso. rewrite Cpp_score_is_sum in H.
    assert (L := Cpp_sum_at_least_10 (c :: rest)). lia.
  - intros ul c rest A. rewrite Js_score_is_sum. now apply Js_sum_at_least_10.
Qed.

(** X3 at the one-letter passwords a (main.cpp) and the space (script.js) *)
Lemma X3_nonempty_scores_at_least_10_witness :
  10 <= Cpp.PasswordChecker.score (Cpp.PasswordChecker.check (Cpp.lit "a"))
  /\ 10 <= Js.PasswordChecker.score
             (Js.PasswordChecker.check no_case_table (Js.lit " ")).
Proof.
  split.
  - apply (proj1 X3_nonempty_scores_at_least_10).
  - apply (proj2 (proj2 X3_nonempty_scores_at_least_10)). reflexivity.
Defined.

Lemma lower_code_ascii : forall n, is_ascii n = true -> is_ascii (lower_code n) = true.
Proof.
  intros n H. unfold lower_code, is_upper.
  destruct ((65 <=? n)%N && (n <=? 90)%N) eqn:E; [| exact H].
  apply andb_true_iff in E. rewrite !N.leb_le in E.
  unfold is_ascii. apply N.ltb_lt. lia.
Qed.

(** X4: the dictionary verdict looks at the lower-cased text only: two
    passwords that are equal once their ASCII capitals are lower-cased
    get the same verdict, message and score (main.cpp for all passwords,
    script.js for passwords within ASCII). *)
Theorem X4_dictionary_ignores_case :
  (forall p q,
     map lower_code (codes p) = map lower_code (codes q) ->
     Cpp.DictionaryCriterion.check p = Cpp.DictionaryCriterion.check q)
  /\
  (forall unicodeLower p q,
     forallb is_ascii p = true -> forallb is_ascii q = true ->
     map lower_code p = map lower_code q ->
     Js.DictionaryCriterion.check unicodeLower p
     = Js.DictionaryCriterion.check unicodeLower q).
Proof.
  split.
  - intros p q H. rewrite <- !Cpp_lower_codes in H.
    apply (map_injective N_of_ascii N_of_ascii_inj) in H.
    unfold Cpp.DictionaryCriterion.check, Cpp.DictionaryCriterion.check_with.
    now rewrite H.
  - intros ul p q Hp Hq H. unfold Js.DictionaryCriterion.check.
    now rewrite !Js_toLowerCase_ascii, H by assumption.
Qed.

(** X4 at PassWord and pASSword *)
Lemma X4_dictionary_ignores_case_witness :
  Cpp.DictionaryCriterion.check (Cpp.lit "PassWord")
  = Cpp.DictionaryCriterion.check (Cpp.lit "pASSword")
  /\ Js.DictionaryCriterion.check no_case_table (Js.lit "PassWord")
     = Js.DictionaryCriterion.check no_case_table (Js.lit "pASSword").
Proof.
  split.
  - apply (proj1 X4_dictionary_ignores_case). reflexivity.
  - apply (proj2 X4_dictionary_ignores_case); reflexivity.
Defined.

Lemma b2z_extend : forall a x b, b2z x <= b2z (a || (x || b)).
Proof. intros [] [] []; cbv; discriminate. Qed.

Lemma typesPresent_extend : forall pre cs post,
  typesPresent cs <= typesPresent (pre ++ cs ++ post).
Proof.
  intros pre cs post. unfold typesPresent. rewrite !existsb_app.
  assert (U := b2z_extend (existsb is_upper pre) (existsb is_upper cs)
                          (existsb is_upper post)).
  assert (L := b2z_extend (existsb is_lower pre) (existsb is_lower cs)
                          (existsb is_lower post)).
  assert (D := b2z_extend (existsb is_digit pre) (existsb is_digit cs)
                          (existsb is_digit post)).
  assert (S := b2z_extend (existsb is_special pre) (existsb is_special cs)
                          (existsb is_special post)).
  lia.
Qed.

Lemma quarters_monotone : forall t u, 0 <= t <= u -> 50 * t / 4 <= 50 * u / 4.
Proof. intros t u H. apply Z.div_le_mono; lia. Qed.

(** X5: adding characters before or after a password never lowers the
    score of LengthCriterion nor the score of ComplexityCriterion. *)
Theorem X5_length_and_complexity_grow :
  (forall pre p post,
     score (Cpp.LengthCriterion.check p)
     <= score (Cpp.LengthCriterion.check (pre ++ p ++ post))
     /\ score (Cpp.TypeCriterion.check p)
        <= score (Cpp.TypeCriterion.check (pre ++ p ++ post)))
  /\
  (forall pre p post,
     score (Js.LengthCriterion.check p)
     <= score (Js.LengthCriterion.check (pre ++ p ++ post))
     /\ score (Js.TypeCriterion.check p)
        <= score (Js.TypeCriterion.check (pre ++ p ++ post))).
Proof.
  split; intros pre p post; split.
  - unfold Cpp.LengthCriterion.check, Cpp.length. cbn [score].
    rewrite !length_app, !Nat2Z.inj_add.
    destruct (8 <=? Z.of_nat (List.length p)) eqn:E.
    + apply Z.leb_le in E.
      rewrite (proj2 (Z.leb_le 8 _)) by lia. lia.
    + match goal with |- _ <= (if ?b then _ else _) => destruct b end;
        unfold Cpp.LengthCriterion.scoreValue; lia.
  - rewrite !Cpp_type_score, !codes_app.
    apply quarters_monotone. split; [apply typesPresent_range |].
    apply typesPresent_extend.
  - unfold Js.LengthCriterion.check, Js.length. cbn [score].
    rewrite !length_app, !Nat2Z.inj_add.
    destruct (8 <=? Z.of_nat (List.length p)) eqn:E.
    + apply Z.leb_le in E.
      rewrite (proj2 (Z.leb_le 8 _)) by lia. lia.
    + match goal with |- _ <= (if ?b then _ else _) => destruct b end;
        unfold Js.LengthCriterion.scoreValue; lia.
  - rewrite !Js_type_score.
    apply quarters_monotone. split; [apply typesPresent_range |].
    apply typesPresent_extend.
Qed.

Lemma run_extend : forall (X : Type) (lt : X -> bool) (pre s post : list X),
  (exists a c b, s = a ++ c :: c :: c :: b /\ lt c = false) ->
  exists a c b, pre ++ s ++ post = a ++ c :: c :: c :: b /\ lt c = false.
Proof.
  intros X lt pre s post (a & c & b & -> & H).
  exists (pre ++ a), c, (b ++ post). split; [| exact H].
  rewrite <- !app_assoc. reflexivity.
Qed.

(** X6: a failed verdict of RepetitionCriterion, and in main.cpp of
    DictionaryCriterion, stays failed when characters are added before or
    after the password. *)
Theorem X6_failures_survive_extension :
  (forall pre p post,
     met (Cpp.RepetitionCriterion.check p) = false ->
     met (Cpp.RepetitionCriterion.check (pre ++ p ++ post)) = false)
  /\
  (forall pre p post,
     met (Js.RepetitionCriterion.check p) = false ->
     met (Js.RepetitionCriterion.check (pre ++ p ++ post)) = false)
  /\
  (forall pre p post,
     met (Cpp.DictionaryCriterion.check p) = false ->
     met (Cpp.DictionaryCriterion.check (pre ++ p ++ post)) = false).
Proof.
  split; [| split]; intros pre p post H.
  - apply not_true_iff_false. apply not_true_iff_false in H.
    intros M. apply H. apply Cpp_repetition_met. apply Cpp_repetition_met in M.
    intros R. apply M. now apply run_extend.
  - apply not_true_iff_false. apply not_true_iff_false in H.
    intros M. apply H. apply Js_repetition_met. apply Js_repetition_met in M.
    intros R. apply M. now apply run_extend.
  - apply Cpp_dictionary_weak in H. destruct H as (w & Hw & C).
    apply not_true_iff_false. intros M.
    apply (proj1 (Cpp_dictionary_met _) M w Hw).
    rewrite !codes_app, !map_app. now apply contains_extend.
Qed.

(** X6 at work: aaa inside xaaay, abc inside 1abc2 *)
Lemma X6_failures_survive_extension_witness :
  met (Cpp.RepetitionCriterion.check (Cpp.lit "x" ++ Cpp.lit "aaa" ++ Cpp.lit "y")) = false
  /\ met (Js.RepetitionCriterion.check (Js.lit "x" ++ Js.lit "aaa" ++ Js.lit "y")) = false
  /\ met (Cpp.DictionaryCriterion.check (Cpp.lit "1" ++ Cpp.lit "abc" ++ Cpp.lit "2")) = false.
Proof.
  split; [| split].
  - apply (proj1 X6_failures_survive_extension). reflexivity.
  - apply (proj1 (proj2 X6_failures_survive_extension)). reflexivity.
  - apply (proj2 (proj2 X6_failures_survive_extension)). reflexivity.
Defined.

(** X7: the message of ComplexityCriterion.  When all four classes are
    present it is the fixed success text; otherwise it is the word
    Missing, a colon, the names of the absent classes in the order
    Uppercase, Lowercase, Digit, Special Char, separated by a comma and a
    space, and a final period.  The loop of main.cpp and the join of
    script.js write the same text. *)
Theorem X7_complexity_message :
  (forall password,
     message (Cpp.TypeCriterion.check password)
     = if typesPresent (codes password) =? 4
       then "Excellent! All 4 character types are present."%string
       else ("Missing: " ++ String.concat ", " (absent_classes (codes password)) ++ ".")%string)
  /\
  (forall password,
     message (Js.TypeCriterion.check password)
     = if typesPresent password =? 4
       then "Excellent! All 4 character types are present."%string
       else ("Missing: " ++ String.concat ", " (absent_classes password) ++ ".")%string).
Proof.
  split; intros password.
  - unfold Cpp.TypeCriterion.check. cbn [message].
    rewrite Cpp_scan_spec. unfold typesPresent, absent_classes.
    destruct (existsb is_upper (codes password)), (existsb is_lower (codes password)),
             (existsb is_digit (codes password)), (existsb is_special (codes password));
      reflexivity.
  - unfold Js.TypeCriterion.check. cbn [message].
    rewrite Js_scan_spec. unfold typesPresent, absent_classes.
    destruct (existsb is_upper password), (existsb is_lower password),
             (existsb is_digit password), (existsb is_special password);
      reflexivity.
Qed.

(** X8: the verdict of ComplexityCriterion does not depend on the order
    of the characters: rearranging a password leaves met, message and
    score as they were.  In script.js this holds although rearranging the
    code units changes which of them pair up as surrogates. *)
Theorem X8_complexity_ignores_order :
  (forall p q, Permutation p q ->
               Cpp.TypeCriterion.check p = Cpp.TypeCriterion.check q)
  /\
  (forall p q, Permutation p q ->
               Js.TypeCriterion.check p = Js.TypeCriterion.check q).
Proof.
  split; intros p q P.
  - unfold Cpp.TypeCriterion.check. rewrite !Cpp_scan_spec.
    assert (Pc : Permutation (codes p) (codes q)) by (now apply Permutation_map).
    now rewrite (existsb_perm _ is_upper _ _ Pc), (existsb_perm _ is_lower _ _ Pc),
                (existsb_perm _ is_digit _ _ Pc), (existsb_perm _ is_special _ _ Pc).
  - unfold Js.TypeCriterion.check. rewrite !Js_scan_spec.
    now rewrite (existsb_perm _ is_upper _ _ P), (existsb_perm _ is_lower _ _ P),
                (existsb_perm _ is_digit _ _ P), (existsb_perm _ is_special _ _ P).
Qed.

(** X8 at aB3 and its reverse, and at a surrogate pair split by a digit *)
Lemma X8_complexity_ignores_order_witness :
  Cpp.TypeCriterion.check (Cpp.lit "aB3") = Cpp.TypeCriterion.check (rev (Cpp.lit "aB3"))
  /\ Js.TypeCriterion.check [55357; 56832; 49]%N
     = Js.TypeCriterion.check [55357; 49; 56832]%N.
Proof.
  split.
  - apply (proj1 X8_complexity_ignores_order). apply Permutation_rev.
  - apply (proj2 X8_complexity_ignores_order). apply perm_skip, perm_swap.
Defined.

(** What RepetitionCriterion decides, on the string as the program holds
    it: it is met unless three equal consecutive units (bytes in main.cpp,
    code units in script.js) are found that are not a line terminator;
    the score is 15 when met and 0 otherwise. *)
Lemma repetition_exact_units :
  (forall password,
     let r := Cpp.RepetitionCriterion.check password in
     (met r = true <->
      ~ exists pre c post,
          password = pre ++ c :: c :: c :: post
          /\ c <> ascii_of_nat 10 /\ c <> ascii_of_nat 13)
     /\ score r = (if met r then 15 else 0))
  /\
  (forall password,
     let r := Js.RepetitionCriterion.check password in
     (met r = true <->
      ~ exists pre c post,
          password = pre ++ c :: c :: c :: post
          /\ c <> 10%N /\ c <> 13%N /\ c <> 8232%N /\ c <> 8233%N)
     /\ score r = (if met r then 15 else 0)).
Proof.
  split; intros password r; (split; [| reflexivity]); unfold r.
  - rewrite Cpp_repetition_met. unfold Cpp.RepetitionCriterion.lineTerminator.
    split; intros H (pre & c & post & E & T); apply H; exists pre, c, post;
      (split; [exact E |]).
    + apply orb_false_iff. rewrite <- !not_true_iff_false, !Ascii.eqb_eq. exact T.
    + apply orb_false_iff in T. rewrite <- !not_true_iff_false, !Ascii.eqb_eq in T.
      exact T.
  - rewrite Js_repetition_met. unfold Js.RepetitionCriterion.lineTerminator.
    split; intros H (pre & c & post & E & T); apply H; exists pre, c, post;
      (split; [exact E |]).
    + rewrite !orb_false_iff, <- !not_true_iff_false, !N.eqb_eq. tauto.
    + rewrite !orb_false_iff, <- !not_true_iff_false, !N.eqb_eq in T. tauto.
Qed.

(** X10: the weak list of main.cpp is an unordered set, whose iteration
    order the language leaves open.  In whatever order the loop visits
    the ten terms, DictionaryCriterion returns the same verdict. *)
Theorem X10_weak_list_order_is_irrelevant : forall ws password,
  Permutation Cpp.DictionaryCriterion.weakList ws ->
  Cpp.DictionaryCriterion.check_with ws password
  = Cpp.DictionaryCriterion.check_with Cpp.DictionaryCriterion.weakList password.
Proof.
  intros ws password P.
  unfold Cpp.DictionaryCriterion.check_with, Cpp.DictionaryCriterion.isWeak_in.
  now rewrite (existsb_perm _ _ _ _ P).
Qed.

(** X10 with the list visited backwards, at the password xgody *)
Lemma X10_weak_list_order_is_irrelevant_witness :
  Cpp.DictionaryCriterion.check_with (rev Cpp.DictionaryCriterion.weakList)
    (Cpp.lit "xgody")
  = Cpp.DictionaryCriterion.check_with Cpp.DictionaryCriterion.weakList (Cpp.lit "xgody").
Proof.
  apply X10_weak_list_order_is_irrelevant. apply Permutation_rev.
Defined.

(** * The front ends *)

Lemma getline_no_line_feed : forall cin,
  ~ In (ascii_of_nat 10) (fst (Terminal.getline cin)).
Proof.
  induction cin as [|c cin IH]; cbn [Terminal.getline]; [intros [] |].
  destruct (Ascii.eqb c (ascii_of_nat 10)) eqn:E; [intros [] |].
  destruct (Terminal.getline cin) as [line rest]. cbn [fst] in *.
  intros [H | H]; [| now apply IH].
  subst c. rewrite Ascii.eqb_refl in E. discriminate.
Qed.

Lemma getline_first_line : forall line rest,
  ~ In (ascii_of_nat 10) line ->
  Terminal.getline (line ++ ascii_of_nat 10 :: rest) = (line, rest)
  /\ Terminal.getline line = (line, []).
Proof.
  induction line as [|c line IH]; intros rest H.
  - split; reflexivity.
  - cbn [Terminal.getline app].
    destruct (Ascii.eqb c (ascii_of_nat 10)) eqn:E.
    + apply Ascii.eqb_eq in E. exfalso. apply H. now left.
    + assert (H' : ~ In (ascii_of_nat 10) line) by (intros X; apply H; now right).
      destruct (IH rest H') as [-> ->]. split; reflexivity.
Qed.

Lemma Cpp_total_bounds : forall c rest,
  10 <= Cpp.PasswordChecker.score (Cpp.PasswordChecker.check (c :: rest)) <= 100.
Proof.
  intros c rest. split.
  - rewrite Cpp_score_is_sum. apply Cpp_sum_at_least_10.
  - unfold Cpp.PasswordChecker.check. rewrite Cpp_check_logged_cons.
    cbn [fst Cpp.PasswordChecker.score]. lia.
Qed.

(** What [main] writes for a password that is not empty. *)
Lemma main_report : forall cin c rest,
  fst (Terminal.getline cin) = c :: rest ->
  let password := c :: rest in
  Terminal.main cin =
  Some ((Terminal.banner ++ Terminal.endl ++ Terminal.rule ++ Terminal.endl
         ++ "Strength Score: "
         ++ Terminal.show_int (Cpp.PasswordChecker.score (Cpp.PasswordChecker.check password))
         ++ "/100" ++ Terminal.endl
         ++ "Evaluation Criteria:" ++ Terminal.endl
         ++ Terminal.rule ++ Terminal.endl
         ++ report_line (Cpp.getName Cpp.Length) (Cpp.LengthCriterion.check password)
         ++ report_line (Cpp.getName Cpp.Complexity) (Cpp.TypeCriterion.check password)
         ++ report_line (Cpp.getName Cpp.Repetition) (Cpp.RepetitionCriterion.check password)
         ++ report_line (Cpp.getName Cpp.Dictionary) (Cpp.DictionaryCriterion.check password)
         ++ Terminal.rule ++ Terminal.endl)%string, 0).
Proof.
  intros cin c rest G password. unfold Terminal.main. rewrite G.
  set (total := Cpp.PasswordChecker.score (Cpp.PasswordChecker.check password)).
  assert (E : Cpp.PasswordChecker.results (Cpp.PasswordChecker.check (c :: rest))
              = [Cpp.LengthCriterion.check password; Cpp.TypeCriterion.check password;
                 Cpp.RepetitionCriterion.check password;
                 Cpp.DictionaryCriterion.check password]).
  { unfold Cpp.PasswordChecker.check. now rewrite Cpp_check_logged_cons. }
  fold password in E |- *. fold total. rewrite E.
  cbn [List.length seq Terminal.print_results].
  unfold Terminal.print_result. rewrite E.
  cbn [nth_error Cpp.PasswordChecker.criteria]. unfold report_line.
  rewrite !append_assoc. reflexivity.
Qed.

(** X11: [main] of main.cpp never reads [results] or [getCriteria()]
    outside their bounds and always ends with the exit status 0,
    whatever is on the standard input. *)
Theorem X11_main_stays_in_bounds : forall cin,
  exists cout, Terminal.main cin = Some (cout, 0).
Proof.
  intros cin. destruct (fst (Terminal.getline cin)) as [|c rest] eqn:G.
  - unfold Terminal.main. rewrite G. eexists. reflexivity.
  - rewrite (main_report cin c rest G). eexists. reflexivity.
Qed.

(** X12: [main] analyses the first line of its input and nothing else:
    the password it checks holds no line feed, and what follows the first
    line feed has no effect on what is written. *)
Theorem X12_main_reads_first_line :
  (forall cin, ~ In (ascii_of_nat 10) (fst (Terminal.getline cin)))
  /\
  (forall line rest,
     ~ In (ascii_of_nat 10) line ->
     Terminal.main (line ++ ascii_of_nat 10 :: rest) = Terminal.main line).
Proof.
  split; [exact getline_no_line_feed |].
  intros line rest H. unfold Terminal.main.
  destruct (getline_first_line line rest H) as [-> ->]. reflexivity.
Qed.

(** X12 at the input of two lines Ab1! and zzz *)
Lemma X12_main_reads_first_line_witness :
  Terminal.main (Cpp.lit "Ab1!" ++ ascii_of_nat 10 :: Cpp.lit "zzz")
  = Terminal.main (Cpp.lit "Ab1!").
Proof.
  apply (proj2 X12_main_reads_first_line).
  intros H. repeat (destruct H as [H | H]; [discriminate H |]). exact H.
Defined.

(** X13: the report of [main].  When the first line is empty it writes
    the banner, the prompt and the words No password entered.  Otherwise
    it writes the total, which lies between 10 and 100, and then one line
    per criterion in the order Length, Complexity, Repetition,
    Dictionary: PASS or FAIL as the criterion is met or not, the name of
    the criterion, a bar, the message.  Each name fills a field of
    exactly 30 columns, so the bars stand in one column. *)
Theorem X13_main_report :
  (forall cin,
     fst (Terminal.getline cin) = [] ->
     Terminal.main cin
     = Some ((Terminal.banner ++ "No password entered." ++ Terminal.endl)%string, 0))
  /\
  (forall cin c rest,
     fst (Terminal.getline cin) = c :: rest ->
     let password := c :: rest in
     let total := Cpp.PasswordChecker.score (Cpp.PasswordChecker.check password) in
     10 <= total <= 100
     /\ Terminal.main cin =
        Some ((Terminal.banner ++ Terminal.endl ++ Terminal.rule ++ Terminal.endl
               ++ "Strength Score: " ++ to_string total ++ "/100" ++ Terminal.endl
               ++ "Evaluation Criteria:" ++ Terminal.endl
               ++ Terminal.rule ++ Terminal.endl
               ++ report_line "Minimum Length (8 characters)"
                              (Cpp.LengthCriterion.check password)
               ++ report_line "Character Complexity (4 types)"
                              (Cpp.TypeCriterion.check password)
               ++ report_line "No Repetitive Sequences (AAA)"
                              (Cpp.RepetitionCriterion.check password)
               ++ report_line "Not a Common Word/Pattern"
                              (Cpp.DictionaryCriterion.check password)
               ++ Terminal.rule ++ Terminal.endl)%string, 0))
  /\
  (forall criterion,
     String.length (Terminal.setw_left 30 (Cpp.getName criterion)) = 30%nat).
Proof.
  split; [| split].
  - intros cin G. unfold Terminal.main. now rewrite G.
  - intros cin c rest G password total.
    assert (B := Cpp_total_bounds c rest). fold password in B. fold total in B.
    split; [exact B |].
    rewrite (main_report cin c rest G). fold password. fold total.
    unfold Terminal.show_int. rewrite (proj2 (Z.ltb_ge total 0)) by lia.
    reflexivity.
  - intros []; reflexivity.
Qed.

(** X13 at the inputs of an empty line and of the line Ab1! *)
Lemma X13_main_report_witness :
  Terminal.main [ascii_of_nat 10]
  = Some ((Terminal.banner ++ "No password entered." ++ Terminal.endl)%string, 0)
  /\ 10 <= Cpp.PasswordChecker.score (Cpp.PasswordChecker.check (Cpp.lit "Ab1!")) <= 100.
Proof.
  split.
  - apply (proj1 X13_main_report). reflexivity.
  - apply (proj1 (proj2 X13_main_report) (Cpp.lit "Ab1!") "A"%char (Cpp.lit "b1!")).
    reflexivity.
Defined.

Lemma Js_total_range : forall unicodeLower password,
  0 <= Js.PasswordChecker.score (Js.PasswordChecker.check unicodeLower password) <= 100.
Proof.
  intros ul [|c rest]; [vm_compute; split; discriminate |].
  rewrite Js_score_is_sum. unfold sum_scores. cbn [map fold_right].
  assert (H1 := Js_score_range ul Js.Length (c :: rest)).
  assert (H2 := Js_score_range ul Js.Complexity (c :: rest)).
  assert (H3 := Js_score_range ul Js.Repetition (c :: rest)).
  assert (H4 := Js_score_range ul Js.Dictionary (c :: rest)).
  cbv [Js.check Js.scoreValue Js.LengthCriterion.scoreValue
       Js.TypeCriterion.scoreValue Js.RepetitionCriterion.scoreValue
       Js.DictionaryCriterion.scoreValue] in H1, H2, H3, H4.
  lia.
Qed.

Lemma Js_length_zero : forall password : Js.str,
  (Js.length password =? 0) = match password with [] => true | _ :: _ => false end
  /\ (0 <? Js.length password) = match password with [] => false | _ :: _ => true end.
Proof.
  intros [|c rest]; [split; reflexivity |].
  unfold Js.length. cbn [List.length]. split.
  - apply Z.eqb_neq. lia.
  - apply Z.ltb_lt. lia.
Qed.

(** The label, the colour and the two texts [checkPassword] writes. *)
Lemma checkPassword_label : forall unicodeLower password meter text feedback,
  let page' := Browser.checkPassword unicodeLower
                 (Browser.mkPage (Some password) (Some meter) (Some text) (Some feedback)) in
  let p := Js.PasswordChecker.score (Js.PasswordChecker.check unicodeLower password) in
  exists label color,
    Browser.meterElement page' = Some (Browser.mkMeter (to_string p ++ "%") color)
    /\ Browser.textElement page'
       = Some (Browser.mkText
                 (label ++ " (" ++ to_string p ++ "%)")
                 (match password with
                  | [] => "font-semibold text-gray-400"
                  | _ :: _ => "font-semibold "
                  end))
    /\ ((75 <= p <= 100 /\ label = "Very Strong"%string /\ color = "#10b981"%string)
        \/ (50 <= p < 75 /\ label = "Strong"%string /\ color = "#f59e0b"%string)
        \/ (0 < p < 50 /\ label = "Medium"%string /\ color = "#f97316"%string)
        \/ (p = 0 /\ label = "N/A"%string /\ color = "#6b7280"%string)).
Proof.
  intros ul password meter text feedback page' p.
  assert (R := Js_total_range ul password). fold p in R.
  unfold page', Browser.checkPassword.
  cbn [Browser.inputElement Browser.meterElement Browser.textElement
       Browser.feedbackElement].
  fold p. unfold Browser.show. rewrite (proj2 (Z.ltb_ge p 0)) by lia.
  rewrite (proj1 (Js_length_zero password)).
  unfold Browser.strength, Browser.rate.
  destruct (75 <=? p) eqn:E1; [apply Z.leb_le in E1 | apply Z.leb_gt in E1].
  { eexists; eexists. split; [reflexivity |]. split.
    - cbn [Browser.textElement]. destruct password; reflexivity.
    - left. repeat split; lia. }
  destruct (50 <=? p) eqn:E2; [apply Z.leb_le in E2 | apply Z.leb_gt in E2].
  { eexists; eexists. split; [reflexivity |]. split.
    - cbn [Browser.textElement]. destruct password; reflexivity.
    - right; left. repeat split; lia. }
  destruct (0 <? p) eqn:E3; [apply Z.ltb_lt in E3 | apply Z.ltb_ge in E3].
  { eexists; eexists. split; [reflexivity |]. split.
    - cbn [Browser.textElement]. destruct password; reflexivity.
    - right; right; left. repeat split; lia. }
  eexists; eexists. split; [reflexivity |]. split.
  - cbn [Browser.textElement]. destruct password; reflexivity.
  - right; right; right. repeat split; lia.
Qed.

(** X14: the strength meter of [checkPassword].  With the four elements
    on the page, the meter is as wide as the total in per cent, which is
    between 0 and 100, and the text is the label followed by the
    percentage: Very Strong from 75 on, Strong from 50 to 74, Medium from
    1 to 49 and N/A at 0, each with its colour.  The label Weak and the
    colour red, which the function starts from, are never shown. *)
Theorem X14_strength_label : forall unicodeLower password meter text feedback,
  let page' := Browser.checkPassword unicodeLower
                 (Browser.mkPage (Some password) (Some meter) (Some text) (Some feedback)) in
  let p := Js.PasswordChecker.score (Js.PasswordChecker.check unicodeLower password) in
  exists label color,
    Browser.meterElement page' = Some (Browser.mkMeter (to_string p ++ "%") color)
    /\ Browser.textElement page'
       = Some (Browser.mkText
                 (label ++ " (" ++ to_string p ++ "%)")
                 (match password with
                  | [] => "font-semibold text-gray-400"
                  | _ :: _ => "font-semibold "
                  end))
    /\ ((75 <= p <= 100 /\ label = "Very Strong"%string /\ color = "#10b981"%string)
        \/ (50 <= p < 75 /\ label = "Strong"%string /\ color = "#f59e0b"%string)
        \/ (0 < p < 50 /\ label = "Medium"%string /\ color = "#f97316"%string)
        \/ (p = 0 /\ label = "N/A"%string /\ color = "#6b7280"%string))
    /\ label <> "Weak"%string /\ color <> "#ef4444"%string.
Proof.
  intros ul password meter text feedback page' p.
  destruct (checkPassword_label ul password meter text feedback)
    as (label & color & Hm & Ht & Hl).
  exists label, color. split; [exact Hm |]. split; [exact Ht |]. split; [exact Hl |].
  destruct Hl as [(_ & -> & ->) | [(_ & -> & ->) | [(_ & -> & ->) | (_ & -> & ->)]]];
    split; discriminate.
Qed.

(** X15: for a password within ASCII, [checkPassword] shows the label N/A
    exactly when the password is empty; a password that is not empty is
    rated Medium, Strong or Very Strong, with at least 10 per cent. *)
Theorem X15_not_rated_only_when_empty :
  forall unicodeLower (password : Js.str) meter text feedback,
  forallb is_ascii password = true ->
  let page' := Browser.checkPassword unicodeLower
                 (Browser.mkPage (Some password) (Some meter) (Some text) (Some feedback)) in
  let p := Js.PasswordChecker.score (Js.PasswordChecker.check unicodeLower password) in
  ((exists cls, Browser.textElement page' = Some (Browser.mkText "N/A (0%)" cls))
   <-> password = [])
  /\ (password <> [] ->
      10 <= p <= 100 /\
      exists label cls,
        Browser.textElement page'
        = Some (Browser.mkText (label ++ " (" ++ to_string p ++ "%)") cls)
        /\ (label = "Medium"%string \/ label = "Strong"%string
            \/ label = "Very Strong"%string)).
Proof.
  intros ul password meter text feedback A page' p. subst page' p.
  destruct password as [|c rest].
  - split; [split; [reflexivity | intros _; eexists; reflexivity] | congruence].
  - destruct (checkPassword_label ul (c :: rest) meter text feedback)
      as (label & color & _ & Ht & Hl).
    set (p := Js.PasswordChecker.score (Js.PasswordChecker.check ul (c :: rest))) in *.
    assert (P : 10 <= p).
    { unfold p. rewrite Js_score_is_sum. now apply Js_sum_at_least_10. }
    split; [split |].
    + intros (cls & E). exfalso. rewrite Ht in E.
      destruct Hl as [(_ & -> & _) | [(_ & -> & _) | [(_ & -> & _) | (Z0 & _)]]];
        try discriminate E.
      lia.
    + discriminate.
    + intros _. split; [destruct Hl as [H | [H | [H | H]]]; lia |].
      exists label. eexists. split; [exact Ht |].
      destruct Hl as [(_ & -> & _) | [(_ & -> & _) | [(_ & -> & _) | (Z0 & _)]]];
        auto; lia.
Qed.

(** X15 at the password abc, rated Medium with 27 per cent *)
Lemma X15_not_rated_only_when_empty_witness :
  10 <= Js.PasswordChecker.score (Js.PasswordChecker.check no_case_table (Js.lit "abc"))
     <= 100.
Proof.
  apply (X15_not_rated_only_when_empty no_case_table (Js.lit "abc")
           (Browser.mkMeter "" "") (Browser.mkText "" "") []).
  - reflexivity.
  - discriminate.
Defined.

(** X16: the feedback list of [checkPassword].  With the four elements on
    the page, whatever the list held before is replaced: for the empty
    password by the heading and the invitation to start typing, otherwise
    by the heading and one item per criterion in the order Length,
    Complexity, Repetition, Dictionary, green with a check mark when the
    criterion is met, yellow with a cross when it is not, with the name of
    the criterion and its message; the input is left as it is.  When one
    of the four elements is missing, nothing on the page changes. *)
Theorem X16_feedback_list :
  (forall unicodeLower password meter text feedback,
     let page' := Browser.checkPassword unicodeLower
                    (Browser.mkPage (Some password) (Some meter) (Some text)
                                    (Some feedback)) in
     Browser.inputElement page' = Some password
     /\ Browser.feedbackElement page'
        = Some (match password with
                | [] => [Browser.Heading; Browser.StartTyping]
                | _ :: _ =>
                    [Browser.Heading;
                     feedback_item "Minimum Length (8 characters)"
                                   (Js.LengthCriterion.check password);
                     feedback_item "Character Complexity (4 types)"
                                   (Js.TypeCriterion.check password);
                     feedback_item "No Repetitive Sequences (AAA)"
                                   (Js.RepetitionCriterion.check password);
                     feedback_item "Not a Common Word/Pattern"
                                   (Js.DictionaryCriterion.check unicodeLower password)]
                end))
  /\
  (forall unicodeLower page,
     Browser.inputElement page = None \/ Browser.meterElement page = None
     \/ Browser.textElement page = None \/ Browser.feedbackElement page = None ->
     Browser.checkPassword unicodeLower page = page).
Proof.
  split.
  - intros ul password meter text feedback page'. unfold page', Browser.checkPassword.
    cbn [Browser.inputElement Browser.meterElement Browser.textElement
         Browser.feedbackElement].
    destruct (Browser.strength _) as [label color].
    cbn [Browser.inputElement Browser.feedbackElement].
    split; [reflexivity |].
    rewrite (proj2 (Js_length_zero password)).
    destruct password as [|c rest]; [reflexivity |].
    unfold Js.PasswordChecker.check. rewrite Js_check_logged_cons.
    reflexivity.
  - intros ul [i m t f] H. unfold Browser.checkPassword.
    cbn [Browser.inputElement Browser.meterElement Browser.textElement
         Browser.feedbackElement] in *.
    destruct i, m, t, f; try reflexivity.
    destruct H as [H | [H | [H | H]]]; discriminate.
Qed.

(** X16 on a page without its meter *)
Lemma X16_feedback_list_witness :
  Browser.checkPassword no_case_table
    (Browser.mkPage (Some (Js.lit "abc")) None (Some (Browser.mkText "" "")) (Some []))
  = Browser.mkPage (Some (Js.lit "abc")) None (Some (Browser.mkText "" "")) (Some []).
Proof.
  apply (proj2 X16_feedback_list). right. left. reflexivity.
Defined.

(** * Passwords as text: characters against bytes and code units *)

Lemma has_run3_map : forall (X Y : Type) (f : X -> Y) (s : list X),
  has_run3 s -> has_run3 (map f s).
Proof.
  intros X Y f s (pre & c & post & ->).
  exists (map f pre), (f c), (map f post). now rewrite map_app.
Qed.

Lemma has_run3_cons : forall (X : Type) (x : X) (s : list X),
  has_run3 s -> has_run3 (x :: s).
Proof. intros X x s (pre & c & post & ->). now exists (x :: pre), c, post. Qed.

Lemma no_run3_nil : forall X : Type, ~ has_run3 (@nil X).
Proof. intros X (pre & c & post & H). destruct pre; discriminate. Qed.

(** An encoding that writes a character either as itself, one plain unit,
    or as a lead unit followed by one or two trail units: three equal
    consecutive units can only be three equal consecutive characters. *)
Section Chunks.
Variable enc : N -> list N.
Variables plain trail dom : N -> bool.
Hypothesis plain_not_trail : forall u, plain u = true -> trail u = false.
Hypothesis shape : forall c, dom c = true ->
  (enc c = [c] /\ plain c = true)
  \/ (exists l t1, enc c = [l; t1]
                   /\ plain l = false /\ trail l = false /\ trail t1 = true)
  \/ (exists l t1 t2, enc c = [l; t1; t2]
                      /\ plain l = false /\ trail l = false
                      /\ trail t1 = true /\ trail t2 = true).

Lemma head_not_trail : forall t u rest,
  forallb dom t = true -> flat_map enc t = u :: rest -> trail u = false.
Proof.
  intros [|c t] u rest D E; [discriminate |].
  cbn [forallb] in D. apply andb_true_iff in D. destruct D as [Dc _].
  cbn [flat_map] in E.
  destruct (shape c Dc) as [(S & P) | [(l & t1 & S & _ & T & _)
                                      | (l & t1 & t2 & S & _ & T & _)]];
    rewrite S in E; injection E as <- _; auto.
Qed.

Lemma head_plain : forall t u rest,
  forallb dom t = true -> flat_map enc t = u :: rest -> plain u = true ->
  exists t', t = u :: t' /\ rest = flat_map enc t' /\ forallb dom t' = true.
Proof.
  intros [|c t] u rest D E P; [discriminate |].
  cbn [forallb] in D. apply andb_true_iff in D. destruct D as [Dc Dt].
  cbn [flat_map] in E.
  destruct (shape c Dc) as [(S & _) | [(l & t1 & S & Pl & _)
                                      | (l & t1 & t2 & S & Pl & _)]];
    rewrite S in E; injection E as <- E.
  - exists t. now rewrite E.
  - congruence.
  - congruence.
Qed.

Lemma chunk_run : forall t,
  forallb dom t = true -> has_run3 (flat_map enc t) -> has_run3 t.
Proof.
  induction t as [|c t IH]; intros D R; [exact R |].
  assert (D' := D). cbn [forallb] in D'. apply andb_true_iff in D'.
  destruct D' as [Dc Dt]. cbn [flat_map] in R.
  destruct R as (pre & u & post & E).
  destruct (shape c Dc) as [(S & P) | [(l & t1 & S & Pl & Tl & T1)
                                      | (l & t1 & t2 & S & Pl & Tl & T1 & T2)]];
    rewrite S in E; cbn [app] in E.
  - destruct pre as [|x pre].
    + injection E as -> E.
      destruct (head_plain t u (u :: post) Dt E P) as (t' & -> & E' & Dt').
      destruct (head_plain t' u post Dt' (eq_sym E') P) as (t'' & -> & _).
      now exists [], u, t''.
    + injection E as _ E. apply has_run3_cons, IH; [exact Dt |].
      now exists pre, u, post.
  - destruct pre as [|x [|y pre]].
    + injection E as -> <- _. congruence.
    + injection E as _ -> E.
      assert (F := head_not_trail t u (u :: post) Dt E). congruence.
    + injection E as _ _ E. apply has_run3_cons, IH; [exact Dt |].
      now exists pre, u, post.
  - destruct pre as [|x [|y [|z pre]]].
    + injection E as -> <- _. congruence.
    + injection E as _ -> _ E.
      assert (F := head_not_trail t u post Dt E). congruence.
    + injection E as _ _ -> E.
      assert (F := head_not_trail t u (u :: post) Dt E). congruence.
    + injection E as _ _ _ E. apply has_run3_cons, IH; [exact Dt |].
      now exists pre, u, post.
Qed.

End Chunks.

Lemma utf8_shape : forall c,
  is_bmp c = true ->
  (utf8_codes c = [c] /\ (c <? 128)%N = true)
  \/ (exists l t1, utf8_codes c = [l; t1]
        /\ (l <? 128)%N = false
        /\ ((128 <=? l) && (l <? 192))%N = false
        /\ ((128 <=? t1) && (t1 <? 192))%N = true)
  \/ (exists l t1 t2, utf8_codes c = [l; t1; t2]
        /\ (l <? 128)%N = false
        /\ ((128 <=? l) && (l <? 192))%N = false
        /\ ((128 <=? t1) && (t1 <? 192))%N = true
        /\ ((128 <=? t2) && (t2 <? 192))%N = true).
Proof.
  intros c B. unfold is_bmp in B. unfold utf8_codes.
  destruct (c <? 128)%N eqn:E1; [left; now split |].
  right. rewrite B.
  apply N.ltb_ge in E1. apply N.ltb_lt in B.
  assert (M1 : (c mod 64 < 64)%N) by (apply N.mod_lt; discriminate).
  assert (M2 : ((c / 64) mod 64 < 64)%N) by (apply N.mod_lt; discriminate).
  set (m1 := (c mod 64)%N) in *. set (m2 := ((c / 64) mod 64)%N) in *.
  clearbody m1 m2.
  destruct (c <? 2048)%N eqn:E2; [apply N.ltb_lt in E2 | apply N.ltb_ge in E2].
  - left. eexists; eexists. split; [reflexivity |].
    assert (Q : (c / 64 < 32)%N) by (apply N.Div0.div_lt_upper_bound; lia).
    set (q := (c / 64)%N) in *. clearbody q.
    rewrite !andb_false_iff, !andb_true_iff, !N.ltb_ge, !N.leb_gt, !N.leb_le, !N.ltb_lt.
    split; [lia |]. split; [right; lia |]. lia.
  - right. eexists; eexists; eexists. split; [reflexivity |].
    assert (Q : (c / 4096 < 16)%N) by (apply N.Div0.div_lt_upper_bound; lia).
    set (q := (c / 4096)%N) in *. clearbody q.
    rewrite !andb_false_iff, !andb_true_iff, !N.ltb_ge, !N.leb_gt, !N.leb_le, !N.ltb_lt.
    split; [lia |]. split; [right; lia |]. lia.
Qed.

Lemma utf16_shape : forall c,
  is_scalar c = true ->
  (utf16_of_code_point c = [c]
   /\ ((c <? 55296) || (57343 <? c))%N = true)
  \/ (exists l t1, utf16_of_code_point c = [l; t1]
        /\ ((l <? 55296) || (57343 <? l))%N = false
        /\ ((56320 <=? l) && (l <=? 57343))%N = false
        /\ ((56320 <=? t1) && (t1 <=? 57343))%N = true)
  \/ (exists l t1 t2, utf16_of_code_point c = [l; t1; t2]
        /\ ((l <? 55296) || (57343 <? l))%N = false
        /\ ((56320 <=? l) && (l <=? 57343))%N = false
        /\ ((56320 <=? t1) && (t1 <=? 57343))%N = true
        /\ ((56320 <=? t2) && (t2 <=? 57343))%N = true).
Proof.
  intros c S. unfold is_scalar in S. unfold utf16_of_code_point.
  rewrite orb_true_iff, andb_true_iff, !N.ltb_lt in S.
  destruct (c <? 65536)%N eqn:E; [apply N.ltb_lt in E | apply N.ltb_ge in E].
  - left. split; [reflexivity |].
    rewrite orb_true_iff, !N.ltb_lt. lia.
  - right. left. eexists; eexists. split; [reflexivity |].
    assert (M : ((c - 65536) mod 1024 < 1024)%N) by (apply N.mod_lt; discriminate).
    assert (Q : ((c - 65536) / 1024 < 1024)%N)
      by (apply N.Div0.div_lt_upper_bound; lia).
    set (m := ((c - 65536) mod 1024)%N) in *. set (q := ((c - 65536) / 1024)%N) in *.
    clearbody m q.
    rewrite orb_false_iff, andb_false_iff, andb_true_iff,
            !N.ltb_ge, !N.leb_gt, !N.leb_le.
    repeat split; lia.
Qed.

(** Three equal consecutive UTF-16 code units of a text are three equal
    consecutive characters of it. *)
Lemma utf16_run : forall text,
  forallb is_scalar text = true -> has_run3 (utf16 text) -> has_run3 text.
Proof.
  intros text S R.
  apply (chunk_run utf16_of_code_point
           (fun u => ((u <? 55296) || (57343 <? u))%N)
           (fun u => ((56320 <=? u) && (u <=? 57343))%N) is_scalar); auto.
  - intros u P. rewrite orb_true_iff, !N.ltb_lt in P.
    rewrite andb_false_iff, N.leb_gt, N.leb_gt. lia.
  - exact utf16_shape.
Qed.

(** The same for the UTF-8 bytes of a text below U+10000. *)
Lemma utf8_codes_run : forall text,
  forallb is_bmp text = true -> has_run3 (flat_map utf8_codes text) -> has_run3 text.
Proof.
  intros text B R.
  apply (chunk_run utf8_codes (fun u => (u <? 128)%N)
           (fun u => ((128 <=? u) && (u <? 192))%N) is_bmp); auto.
  - intros u P. apply N.ltb_lt in P. rewrite andb_false_iff, N.leb_gt. left. lia.
  - exact utf8_shape.
Qed.

Lemma codes_utf8_of_code_point : forall c,
  (c < 1114112)%N -> codes (utf8_of_code_point c) = utf8_codes c.
Proof.
  intros c V. unfold utf8_of_code_point, utf8_codes, codes.
  assert (M1 : (c mod 64 < 64)%N) by (apply N.mod_lt; discriminate).
  assert (M2 : ((c / 64) mod 64 < 64)%N) by (apply N.mod_lt; discriminate).
  assert (M3 : ((c / 4096) mod 64 < 64)%N) by (apply N.mod_lt; discriminate).
  set (m1 := (c mod 64)%N) in *. set (m2 := ((c / 64) mod 64)%N) in *.
  set (m3 := ((c / 4096) mod 64)%N) in *. clearbody m1 m2 m3.
  destruct (c <? 128)%N eqn:E1; [apply N.ltb_lt in E1 | apply N.ltb_ge in E1].
  { cbn [map]. now rewrite N_ascii_embedding by lia. }
  destruct (c <? 2048)%N eqn:E2; [apply N.ltb_lt in E2 | apply N.ltb_ge in E2].
  { assert (Q : (c / 64 < 32)%N) by (apply N.Div0.div_lt_upper_bound; lia).
    set (q := (c / 64)%N) in *. clearbody q.
    cbn [map]. now rewrite !N_ascii_embedding by lia. }
  destruct (c <? 65536)%N eqn:E3; [apply N.ltb_lt in E3 | apply N.ltb_ge in E3].
  { assert (Q : (c / 4096 < 16)%N) by (apply N.Div0.div_lt_upper_bound; lia).
    set (q := (c / 4096)%N) in *. clearbody q.
    cbn [map]. now rewrite !N_ascii_embedding by lia. }
  assert (Q : (c / 262144 < 5)%N) by (apply N.Div0.div_lt_upper_bound; lia).
  set (q := (c / 262144)%N) in *. clearbody q.
  cbn [map]. now rewrite !N_ascii_embedding by lia.
Qed.

Lemma scalar_is_code_point : forall c, is_scalar c = true -> (c < 1114112)%N.
Proof.
  intros c S. unfold is_scalar in S.
  rewrite orb_true_iff, andb_true_iff, !N.ltb_lt in S. lia.
Qed.

Lemma codes_utf8 : forall text,
  forallb is_scalar text = true -> codes (utf8 text) = flat_map utf8_codes text.
Proof.
  induction text as [|c text IH]; intros S; [reflexivity |].
  cbn [forallb] in S. apply andb_true_iff in S. destruct S as [Sc St].
  unfold utf8 in *. cbn [flat_map]. rewrite codes_app, IH by exact St.
  now rewrite codes_utf8_of_code_point by (now apply scalar_is_code_point).
Qed.

(** Every character takes at least one byte and one code unit. *)
Lemma utf8_length : forall text, (List.length text <= List.length (utf8 text))%nat.
Proof.
  induction text as [|c text IH]; [apply Nat.le_refl |].
  unfold utf8 in *. cbn [flat_map]. rewrite length_app. cbn [List.length].
  assert (L : (1 <= List.length (utf8_of_code_point c))%nat).
  { unfold utf8_of_code_point.
    destruct (c <? 128)%N; [| destruct (c <? 2048)%N; [| destruct (c <? 65536)%N]];
      cbn [List.length]; lia. }
  unfold Cpp.str, Cpp.char in *. lia.
Qed.

Lemma utf16_length : forall text, (List.length text <= List.length (utf16 text))%nat.
Proof.
  induction text as [|c text IH]; [apply Nat.le_refl |].
  unfold utf16 in *. cbn [flat_map]. rewrite length_app. cbn [List.length].
  assert (L : (1 <= List.length (utf16_of_code_point c))%nat).
  { unfold utf16_of_code_point. destruct (c <? 65536)%N; cbn [List.length]; lia. }
  unfold Js.str in *. lia.
Qed.

Lemma utf16_bmp : forall text, forallb is_bmp text = true -> utf16 text = text.
Proof.
  induction text as [|c text IH]; intros B; [reflexivity |].
  cbn [forallb] in B. apply andb_true_iff in B. destruct B as [Bc Bt].
  unfold utf16 in *. cbn [flat_map]. rewrite IH by exact Bt.
  unfold utf16_of_code_point. unfold is_bmp in Bc. now rewrite Bc.
Qed.

(** An ASCII character of the text is a byte of its UTF-8 form and a code
    unit of its UTF-16 form. *)
Lemma ascii_in_utf8 : forall text n,
  In n text -> (n < 128)%N -> In n (codes (utf8 text)).
Proof.
  intros text n Hin A. unfold codes.
  replace n with (N_of_ascii (ascii_of_N n)) by (apply N_ascii_embedding; lia).
  apply in_map. unfold utf8. apply in_flat_map. exists n. split; [exact Hin |].
  unfold utf8_of_code_point. rewrite (proj2 (N.ltb_lt n 128) A). now left.
Qed.

Lemma ascii_in_utf16 : forall text n,
  In n text -> (n < 128)%N -> In n (utf16 text).
Proof.
  intros text n Hin A. unfold utf16. apply in_flat_map. exists n.
  split; [exact Hin |]. unfold utf16_of_code_point.
  rewrite (proj2 (N.ltb_lt n 65536)) by lia. now left.
Qed.

Lemma class_is_ascii : forall n,
  is_upper n = true \/ is_lower n = true \/ is_digit n = true \/ is_special n = true ->
  (n < 128)%N.
Proof.
  intros n [H | [H | [H | H]]]; [| | | now apply special_is_ascii];
    unfold is_upper, is_lower, is_digit in H;
    rewrite andb_true_iff, !N.leb_le in H; lia.
Qed.

Lemma class_in_utf8 : forall (cls : N -> bool) text,
  (forall n, cls n = true -> (n < 128)%N) ->
  Exists (fun n => cls n = true) text ->
  Exists (fun n => cls n = true) (codes (utf8 text)).
Proof.
  intros cls text A E. apply Exists_exists in E. destruct E as (n & Hin & C).
  apply Exists_exists. exists n. split; [| exact C].
  apply ascii_in_utf8; auto.
Qed.

Lemma class_in_utf16 : forall (cls : N -> bool) text,
  (forall n, cls n = true -> (n < 128)%N) ->
  Exists (fun n => cls n = true) text ->
  Exists (fun n => cls n = true) (utf16 text).
Proof.
  intros cls text A E. apply Exists_exists in E. destruct E as (n & Hin & C).
  apply Exists_exists. exists n. split; [| exact C].
  apply ascii_in_utf16; auto.
Qed.

(** The lower-cased bytes of one character: an ASCII character gives its
    lower-cased code, any other character bytes from 128 on. *)
Lemma lowered_chunk : forall c,
  (c < 128)%N /\ map lower_code (utf8_codes c) = [lower_code c]
                /\ (lower_code c < 128)%N
  \/ exists b bs, map lower_code (utf8_codes c) = b :: bs
                  /\ Forall (fun x => (128 <= x)%N) (b :: bs).
Proof.
  intros c. unfold utf8_codes.
  assert (U : forall x, (128 <= x)%N -> lower_code x = x).
  { intros x Hx. unfold lower_code, is_upper.
    replace (x <=? 90)%N with false; [now rewrite andb_false_r |].
    symmetry. apply N.leb_gt. lia. }
  destruct (c <? 128)%N eqn:E1; [apply N.ltb_lt in E1 | apply N.ltb_ge in E1].
  { left. split; [exact E1 |]. split; [reflexivity |].
    assert (A := lower_code_ascii c). unfold is_ascii in A.
    apply N.ltb_lt, A, N.ltb_lt, E1. }
  right.
  set (q1 := (c / 64)%N). set (q2 := (c / 4096)%N). set (q3 := (c / 262144)%N).
  set (m1 := (c mod 64)%N). set (m2 := (q1 mod 64)%N). set (m3 := (q2 mod 64)%N).
  clearbody q1 q2 q3 m1 m2 m3.
  destruct (c <? 2048)%N; [| destruct (c <? 65536)%N]; cbn [map];
    rewrite !U by lia; eexists; eexists; (split; [reflexivity |]);
    repeat constructor; lia.
Qed.

Lemma lowered_prefix : forall w text rest,
  Forall (fun x => (x < 128)%N) w ->
  flat_map (fun c => map lower_code (utf8_codes c)) text = w ++ rest ->
  exists t1 t2, text = t1 ++ t2 /\ map lower_code t1 = w.
Proof.
  induction w as [|x w IH]; intros text rest A E.
  - now exists [], text.
  - destruct text as [|c text]; [discriminate |].
    apply Forall_cons_iff in A. destruct A as [Ax Aw].
    cbn [flat_map] in E.
    destruct (lowered_chunk c) as [(_ & L & _) | (b & bs & L & F)]; rewrite L in E.
    + injection E as <- E. destruct (IH text rest Aw E) as (t1 & t2 & -> & <-).
      now exists (c :: t1), t2.
    + injection E as -> _. apply Forall_cons_iff in F. lia.
Qed.

(** An ASCII word found in the lower-cased UTF-8 bytes of a text is found
    in the text with its ASCII capitals lower-cased. *)
Lemma lowered_contains : forall w text pre post,
  Forall (fun x => (x < 128)%N) w -> w <> [] ->
  flat_map (fun c => map lower_code (utf8_codes c)) text = pre ++ w ++ post ->
  contains (map lower_code text) w.
Proof.
  intros w text pre post A NE. revert pre.
  induction text as [|c text IH]; intros pre E.
  - destruct pre; [destruct w; [congruence | discriminate] | discriminate].
  - destruct pre as [|p pre].
    + destruct (lowered_prefix w (c :: text) post A E) as (t1 & t2 & -> & <-).
      exists [], (map lower_code t2). now rewrite map_app.
    + cbn [flat_map] in E.
      destruct (lowered_chunk c) as [(_ & L & _) | (b & bs & L & F)]; rewrite L in E.
      * injection E as _ E. destruct (IH pre E) as (a & z & H).
        exists (lower_code c :: a), z. cbn [map]. now rewrite H.
      * apply app_eq_app in E. destruct E as (l & [[E1 E2] | [E1 E2]]).
        -- destruct l as [|x l].
           ++ cbn [app] in E2.
              destruct (IH [] (eq_sym E2)) as (a & z & H).
              exists (lower_code c :: a), z. cbn [map]. now rewrite H.
           ++ destruct w as [|y w]; [congruence |].
              injection E2 as -> _. apply Forall_cons_iff in A.
              assert (Hx : In x (b :: bs)) by (rewrite E1; apply in_elt).
              rewrite Forall_forall in F. apply F in Hx. lia.
        -- destruct (IH l E2) as (a & z & H).
           exists (lower_code c :: a), z. cbn [map]. now rewrite H.
Qed.

Lemma weak_term_is_ascii : forall w,
  In w weak_terms -> Forall (fun x => (x < 128)%N) (text_of w) /\ text_of w <> [].
Proof.
  intros w Hw.
  repeat (destruct Hw as [<- | Hw];
          [split; [repeat constructor | discriminate] |]).
  destruct Hw.
Qed.

Lemma utf8_no_weak : forall text w,
  forallb is_scalar text = true -> In w weak_terms ->
  ~ contains (map lower_code text) (text_of w) ->
  ~ contains (map lower_code (codes (utf8 text))) (text_of w).
Proof.
  intros text w S Hw H (pre & post & E). apply H.
  destruct (weak_term_is_ascii w Hw) as [A NE].
  rewrite codes_utf8 in E by exact S.
  apply (lowered_contains (text_of w) text pre post A NE).
  rewrite <- E. clear. induction text as [|c text IH]; [reflexivity |].
  cbn [flat_map]. now rewrite map_app, IH.
Qed.

Lemma Cpp_repetition_failed : forall password,
  met (Cpp.RepetitionCriterion.check password) = false -> has_run3 password.
Proof.
  intros password H. unfold Cpp.RepetitionCriterion.check in H. cbn [met] in H.
  apply negb_false_iff in H. rewrite regex_search_repetition in H.
  apply (has_run_spec Ascii.eqb Ascii.eqb_eq) in H.
  destruct H as (pre & c & post & E & _). now exists pre, c, post.
Qed.

Lemma Js_repetition_failed : forall password,
  met (Js.RepetitionCriterion.check password) = false -> has_run3 password.
Proof.
  intros password H. unfold Js.RepetitionCriterion.check in H. cbn [met] in H.
  apply negb_false_iff in H. rewrite regex_search_repetition in H.
  apply (has_run_spec N.eqb N.eqb_eq) in H.
  destruct H as (pre & c & post & E & _). now exists pre, c, post.
Qed.

Lemma utf8_run : forall text,
  forallb is_scalar text = true -> forallb is_bmp text = true ->
  has_run3 (utf8 text) -> has_run3 text.
Proof.
  intros text S B R. apply utf8_codes_run; [exact B |].
  rewrite <- codes_utf8 by exact S. now apply has_run3_map.
Qed.

Lemma utf8_nonempty : forall c rest, exists b bs, utf8 (c :: rest) = b :: bs.
Proof.
  intros c rest. assert (L := utf8_length (c :: rest)).
  destruct (utf8 (c :: rest)) as [|b bs]; [cbn [List.length] in L; lia |].
  now exists b, bs.
Qed.

Lemma utf16_nonempty : forall c rest, exists u us, utf16 (c :: rest) = u :: us.
Proof.
  intros c rest. assert (L := utf16_length (c :: rest)).
  destruct (utf16 (c :: rest)) as [|u us]; [cbn [List.length] in L; lia |].
  now exists u, us.
Qed.

(** C6 as stated fails: the length that LengthCriterion compares with 8 is
    not the number of characters.  Four letters e-acute are 8 bytes, so
    main.cpp finds the criterion met; four emoji U+1F600 are 8 code units,
    so script.js finds it met; and for the single letter e-acute main.cpp
    asks for 6 more characters, not 7. *)
Lemma C6_length_is_not_in_characters :
  let four_e := [233; 233; 233; 233]%N in
  let four_emoji := [128512; 128512; 128512; 128512]%N in
  ~ (met (Cpp.LengthCriterion.check (utf8 four_e)) = true
     <-> 8 <= Z.of_nat (List.length four_e))
  /\ ~ (met (Js.LengthCriterion.check (utf16 four_emoji)) = true
        <-> 8 <= Z.of_nat (List.length four_emoji))
  /\ message (Cpp.LengthCriterion.check (utf8 [233%N]))
     = "Needs 6 more character(s)."%string.
Proof.
  intros four_e four_emoji. split; [| split].
  - intros [H _]. specialize (H eq_refl). cbn in H. lia.
  - intros [H _]. specialize (H eq_refl). cbn in H. lia.
  - reflexivity.
Qed.

(** C6 (amended): for a non-empty password LengthCriterion is met exactly
    when the password, as the program holds it, has 8 units or more: the
    bytes of its UTF-8 form in main.cpp, its UTF-16 code units in
    script.js.  That length is never less than the number of characters,
    is equal to it for an ASCII password, and in script.js for every
    password below U+10000.  The score is 25 when met and 0 otherwise;
    when not met, the message names 8 minus that length as the number of
    characters still needed, and that number is positive.  For "abc" the
    message says 5 more characters. *)
Theorem C6_length_in_units :
  (forall c rest,
     let text := c :: rest in
     let n := Z.of_nat (List.length (utf8 text)) in
     let r := Cpp.LengthCriterion.check (utf8 text) in
     (met r = true <-> 8 <= n)
     /\ score r = (if met r then 25 else 0)
     /\ (met r = false ->
         0 < 8 - n /\
         message r = ("Needs " ++ to_string (8 - n) ++ " more character(s).")%string)
     /\ Z.of_nat (List.length text) <= n
     /\ (forallb is_ascii text = true -> n = Z.of_nat (List.length text)))
  /\
  (forall c rest,
     let text := c :: rest in
     let n := Z.of_nat (List.length (utf16 text)) in
     let r := Js.LengthCriterion.check (utf16 text) in
     (met r = true <-> 8 <= n)
     /\ score r = (if met r then 25 else 0)
     /\ (met r = false ->
         0 < 8 - n /\
         message r = ("Needs " ++ to_string (8 - n) ++ " more character(s).")%string)
     /\ Z.of_nat (List.length text) <= n
     /\ (forallb is_bmp text = true -> n = Z.of_nat (List.length text)))
  /\ Cpp.LengthCriterion.check (utf8 (text_of "abc"))
     = mkResult false "Needs 5 more character(s)." 0
  /\ Js.LengthCriterion.check (utf16 (text_of "abc"))
     = mkResult false "Needs 5 more character(s)." 0.
Proof.
  split; [| split; [| split; reflexivity]].
  - intros c rest text n r.
    destruct (utf8_nonempty c rest) as (b & bs & E).
    assert (U := proj1 length_criterion_units b bs). cbv zeta in U.
    fold text in E. unfold r, n. rewrite E.
    destruct U as (U1 & U2 & U3).
    split; [exact U1 |]. split; [exact U2 |]. split; [exact U3 |].
    rewrite <- E. split.
    + apply inj_le, utf8_length.
    + intros A. rewrite utf8_ascii by exact A. now rewrite length_map.
  - intros c rest text n r.
    destruct (utf16_nonempty c rest) as (u & us & E).
    assert (U := proj1 (proj2 length_criterion_units) u us). cbv zeta in U.
    fold text in E. unfold r, n. rewrite E.
    destruct U as (U1 & U2 & U3).
    split; [exact U1 |]. split; [exact U2 |]. split; [exact U3 |].
    rewrite <- E. split.
    + apply inj_le, utf16_length.
    + intros B. now rewrite utf16_bmp by exact B.
Qed.

(** C8 as stated fails on main.cpp.  The password xK9#mLp2$ followed by
    the one character U+20820 has 10 characters, a letter of each case, a
    digit, a special character, no run of three identical characters and
    no weak term; but the UTF-8 form of U+20820 is F0 A0 A0 A0, three
    equal bytes in a row, so RepetitionCriterion fails and the total is
    85. *)
Lemma C8_three_equal_bytes_in_one_character :
  let text := (text_of "xK9#mLp2$" ++ [133152])%N in
  forallb is_scalar text = true
  /\ 8 <= Z.of_nat (List.length text)
  /\ Exists (fun n => is_upper n = true) text
  /\ Exists (fun n => is_lower n = true) text
  /\ Exists (fun n => is_digit n = true) text
  /\ Exists (fun n => is_special n = true) text
  /\ ~ has_run3 text
  /\ (forall w, In w weak_terms -> ~ contains (map lower_code text) (text_of w))
  /\ Cpp.PasswordChecker.score (Cpp.PasswordChecker.check (utf8 text)) = 85
  /\ met (Cpp.RepetitionCriterion.check (utf8 text)) = false.
Proof.
  intros text. split; [reflexivity |]. split; [cbn; lia |].
  split; [apply Exists_class; reflexivity |].
  split; [apply Exists_class; reflexivity |].
  split; [apply Exists_class; reflexivity |].
  split; [apply Exists_class; reflexivity |].
  split; [apply (no_run3_by_check _ N.eqb N.eqb_eq); reflexivity |].
  split; [| split; reflexivity].
  intros w Hw. apply not_contains_by_check.
  repeat (destruct Hw as [<- | Hw]; [vm_compute; reflexivity |]). destruct Hw.
Qed.

(** C8 (amended): take a password, a sequence of Unicode scalar values, of
    8 characters or more that has an uppercase letter, a lowercase letter,
    a digit and a special character, no run of three identical
    characters, and no weak term once lower-cased the way the program
    does it: ASCII capitals lower-cased in main.cpp, toLowerCase in
    script.js, which is the same for an ASCII password.  script.js gives
    it the total 100.  main.cpp gives it the total 100 provided its UTF-8
    form has no three equal consecutive bytes, which is so whenever all
    its characters are below U+10000. *)
Theorem C8_strong_text_100 : forall text,
  forallb is_scalar text = true ->
  8 <= Z.of_nat (List.length text) ->
  Exists (fun n => is_upper n = true) text ->
  Exists (fun n => is_lower n = true) text ->
  Exists (fun n => is_digit n = true) text ->
  Exists (fun n => is_special n = true) text ->
  ~ has_run3 text ->
  ((forall w, In w weak_terms -> ~ contains (map lower_code text) (text_of w)) ->
   ~ has_run3 (utf8 text) ->
   Cpp.PasswordChecker.score (Cpp.PasswordChecker.check (utf8 text)) = 100)
  /\ ((forall w, In w weak_terms -> ~ contains (map lower_code text) (text_of w)) ->
      forallb is_bmp text = true ->
      Cpp.PasswordChecker.score (Cpp.PasswordChecker.check (utf8 text)) = 100)
  /\ (forall unicodeLower,
        (forall w, In w weak_terms ->
                   ~ contains (Js.toLowerCase unicodeLower (utf16 text)) (text_of w)) ->
        Js.PasswordChecker.score
          (Js.PasswordChecker.check unicodeLower (utf16 text)) = 100)
  /\ (forallb is_ascii text = true ->
      forall unicodeLower,
        Js.toLowerCase unicodeLower (utf16 text) = map lower_code text).
Proof.
  intros text S Hlen Hu Hl Hd Hs Hrun.
  assert (Cpp100 :
            (forall w, In w weak_terms ->
                       ~ contains (map lower_code text) (text_of w)) ->
            ~ has_run3 (utf8 text) ->
            Cpp.PasswordChecker.score (Cpp.PasswordChecker.check (utf8 text)) = 100).
  { intros Hweak R. apply (proj1 strong_units_score_100).
    - assert (L := utf8_length text). unfold Cpp.str, Cpp.char in *. lia.
    - apply class_in_utf8; [intros n H; apply class_is_ascii; tauto | exact Hu].
    - apply class_in_utf8; [intros n H; apply class_is_ascii; tauto | exact Hl].
    - apply class_in_utf8; [intros n H; apply class_is_ascii; tauto | exact Hd].
    - apply class_in_utf8; [intros n H; apply class_is_ascii; tauto | exact Hs].
    - exact R.
    - intros w Hw. apply utf8_no_weak; auto. }
  split; [exact Cpp100 |]. split; [| split].
  - intros Hweak B. apply Cpp100; [exact Hweak |].
    intros R. apply Hrun. now apply utf8_run.
  - intros ul W. apply (proj2 strong_units_score_100).
    + assert (L := utf16_length text). unfold Js.str in *. lia.
    + apply class_in_utf16; [intros n H; apply class_is_ascii; tauto | exact Hu].
    + apply class_in_utf16; [intros n H; apply class_is_ascii; tauto | exact Hl].
    + apply class_in_utf16; [intros n H; apply class_is_ascii; tauto | exact Hd].
    + apply class_in_utf16; [intros n H; apply class_is_ascii; tauto | exact Hs].
    + intros R. apply Hrun. now apply utf16_run.
    + exact W.
  - intros A ul. now rewrite utf16_ascii, Js_toLowerCase_ascii by exact A.
Qed.

(** C8 (amended) at the password xK9#mLp2$ *)
Lemma C8_strong_text_100_witness :
  Cpp.PasswordChecker.score
    (Cpp.PasswordChecker.check (utf8 (text_of "xK9#mLp2$"))) = 100
  /\ Js.PasswordChecker.score
       (Js.PasswordChecker.check no_case_table (utf16 (text_of "xK9#mLp2$"))) = 100.
Proof.
  assert (T : forall w, In w weak_terms ->
                        ~ contains (map lower_code (text_of "xK9#mLp2$")) (text_of w)).
  { intros w Hw. apply not_contains_by_check.
    repeat (destruct Hw as [<- | Hw]; [vm_compute; reflexivity |]). destruct Hw. }
  assert (R : ~ has_run3 (text_of "xK9#mLp2$"))
    by (apply (no_run3_by_check _ N.eqb N.eqb_eq); reflexivity).
  assert (L : 8 <= Z.of_nat (List.length (text_of "xK9#mLp2$"))) by (cbn; lia).
  split.
  - apply (C8_strong_text_100 (text_of "xK9#mLp2$")); try exact T; try exact R;
      try exact L; try (apply Exists_class; reflexivity); reflexivity.
  - apply (C8_strong_text_100 (text_of "xK9#mLp2$")); try exact R;
      try exact L; try (apply Exists_class; reflexivity); try reflexivity.
    exact T.
Defined.

(** X9: what RepetitionCriterion decides, exactly.  It looks at the
    string as the program holds it, the bytes of the UTF-8 form in
    main.cpp and the UTF-16 code units in script.js: it is met unless
    three equal consecutive units are found that are not a line
    terminator (LF, CR; in script.js also U+2028, U+2029), and the score
    is 15 when met and 0 otherwise.  In terms of characters: for a
    password below U+10000 script.js fails it exactly on a run of three
    identical characters that are not line terminators, and so does
    main.cpp for an ASCII password; when script.js fails any password, or
    main.cpp one below U+10000, the password does have a run of three
    identical characters.  Beyond that the two differ from a count of
    characters: three letters e-acute pass main.cpp, the single character
    U+20820 fails it, three emoji U+1F600 pass script.js. *)
Theorem X9_repetition_exact :
  (forall password,
     let r := Cpp.RepetitionCriterion.check password in
     (met r = true <->
      ~ exists pre c post,
          password = pre ++ c :: c :: c :: post
          /\ c <> ascii_of_nat 10 /\ c <> ascii_of_nat 13)
     /\ score r = (if met r then 15 else 0))
  /\
  (forall password,
     let r := Js.RepetitionCriterion.check password in
     (met r = true <->
      ~ exists pre c post,
          password = pre ++ c :: c :: c :: post
          /\ c <> 10%N /\ c <> 13%N /\ c <> 8232%N /\ c <> 8233%N)
     /\ score r = (if met r then 15 else 0))
  /\
  (forall text,
     forallb is_bmp text = true ->
     (met (Js.RepetitionCriterion.check (utf16 text)) = true <->
      ~ exists pre c post,
          text = pre ++ c :: c :: c :: post
          /\ c <> 10%N /\ c <> 13%N /\ c <> 8232%N /\ c <> 8233%N))
  /\
  (forall text,
     forallb is_ascii text = true ->
     (met (Cpp.RepetitionCriterion.check (utf8 text)) = true <->
      ~ exists pre c post,
          text = pre ++ c :: c :: c :: post /\ c <> 10%N /\ c <> 13%N))
  /\
  (forall text,
     forallb is_scalar text = true ->
     met (Js.RepetitionCriterion.check (utf16 text)) = false -> has_run3 text)
  /\
  (forall text,
     forallb is_scalar text = true -> forallb is_bmp text = true ->
     met (Cpp.RepetitionCriterion.check (utf8 text)) = false -> has_run3 text)
  /\ (has_run3 [233; 233; 233]%N
      /\ met (Cpp.RepetitionCriterion.check (utf8 [233; 233; 233]%N)) = true)
  /\ (~ has_run3 [133152%N]
      /\ met (Cpp.RepetitionCriterion.check (utf8 [133152%N])) = false)
  /\ (has_run3 [128512; 128512; 128512]%N
      /\ met (Js.RepetitionCriterion.check (utf16 [128512; 128512; 128512]%N)) = true).
Proof.
  assert (J := proj2 repetition_exact_units). cbv zeta in J.
  split; [exact (proj1 repetition_exact_units) |].
  split; [exact (proj2 repetition_exact_units) |].
  split; [| split; [| split; [| split; [| split; [| split]]]]].
  - intros text B. rewrite utf16_bmp by exact B. apply (J text).
  - intros text A.
    rewrite utf8_ascii, repetition_agrees by exact A.
    rewrite (proj1 (J text)). split; intros H (pre & c & post & E & T); apply H;
      exists pre, c, post; (split; [exact E |]).
    + assert (Hc : In c text) by (rewrite E; apply in_elt).
      rewrite forallb_forall in A. apply A in Hc. unfold is_ascii in Hc.
      apply N.ltb_lt in Hc. repeat split; try tauto; lia.
    + tauto.
  - intros text S F. apply utf16_run; [exact S |]. now apply Js_repetition_failed.
  - intros text S B F. apply utf8_run; [exact S | exact B |].
    now apply Cpp_repetition_failed.
  - split; [now exists [], 233%N, [] | reflexivity].
  - split; [| reflexivity].
    apply (no_run3_by_check _ N.eqb N.eqb_eq). reflexivity.
  - split; [now exists [], 128512%N, [] | reflexivity].
Qed.

(** X9 at the text aaa, which both programs fail *)
Lemma X9_repetition_exact_witness :
  has_run3 (text_of "aaa") /\ has_run3 (text_of "aaa").
Proof.
  split.
  - apply (proj1 (proj2 (proj2 (proj2 (proj2 X9_repetition_exact))))
             (text_of "aaa")); reflexivity.
  - apply (proj1 (proj2 (proj2 (proj2 (proj2 (proj2 X9_repetition_exact)))))
             (text_of "aaa")); reflexivity.
Defined.
